(** * The interactive Lean 4 proof-editing session of NeMo-Skills

    A shallow embedding of
    [nemo_skills/code_execution/lean4/interactive_agent.py]
    (class [InteractiveLeanAgent]) and the properties of its session state
    machine: loading a document, scanning it for editable clauses, editing a
    clause, adding proof structure and reading the interactive panel.

    Python values are modelled as follows.
    - [str] is a list of Unicode code points ([N]); every string method the
      agent calls is defined in [PyStr] with Python's behaviour.
    - [int] is [Z]; the two counters that only count up from zero are [nat].
    - a [dict] is an association list in insertion order, where assigning to
      a key that is present keeps the key's place (Python 3.7+).
    - the three regular expressions are matched by functions that follow the
      backtracking matcher of [re] on each pattern.
    - the prover object ([LeanProver], outside this file) is a state of an
      arbitrary type with a [run_command] function, which returns an answer
      for every command; Python's Unicode table of alphanumeric code points
      is a function [unicode_alnum].
    - [IndexError] of a list subscript is the one exception the methods can
      raise themselves; it is a value of [outcome]. *)

From Stdlib Require Import String Ascii Decimal DecimalString DecimalNat.
From Stdlib Require Import ZArith NArith Bool Lia List Sorted.
Import ListNotations.

Set Implicit Arguments.

(* ===================================================================== *)
(** * Python strings *)
(* ===================================================================== *)

Module PyStr.

Definition char := N.
Definition str := list char.

(** A string literal of the source, written in this file as UTF-8 bytes and
    decoded to code points. *)
Fixpoint utf8 (bs : list N) : str :=
  match bs with
  | [] => []
  | b0 :: t0 =>
    if (b0 <? 128)%N then b0 :: utf8 t0
    else match t0 with
    | [] => []
    | b1 :: t1 =>
      if (b0 <? 224)%N then ((b0 - 192) * 64 + (b1 - 128))%N :: utf8 t1
      else match t1 with
      | [] => []
      | b2 :: t2 =>
        if (b0 <? 240)%N
        then ((b0 - 224) * 4096 + (b1 - 128) * 64 + (b2 - 128))%N :: utf8 t2
        else match t2 with
        | [] => []
        | b3 :: t3 =>
          ((b0 - 240) * 262144 + (b1 - 128) * 4096
           + (b2 - 128) * 64 + (b3 - 128))%N :: utf8 t3
        end
      end
    end
  end.

Definition py (s : string) : str :=
  utf8 (map N_of_ascii (list_ascii_of_string s)).

Definition NL : char := 10%N.
Definition SPACE : char := 32%N.

(** [str.isspace] on one code point: the code points whose bidirectional
    class is WS, B or S, or whose category is Zs. [\s] of [re] on [str]
    patterns is the same set. *)
Definition isspace (c : char) : bool :=
  ((9 <=? c) && (c <=? 13) || (28 <=? c) && (c <=? 32)
   || (c =? 133) || (c =? 160) || (c =? 5760)
   || (8192 <=? c) && (c <=? 8202)
   || (c =? 8232) || (c =? 8233) || (c =? 8239) || (c =? 8287)
   || (c =? 12288))%N.

Definition str_eqb (a b : str) : bool :=
  if list_eq_dec N.eq_dec a b then true else false.

Definition nonempty (s : str) : bool :=
  match s with [] => false | _ :: _ => true end.

(** [s.startswith(p)] *)
Fixpoint startswith (p s : str) : bool :=
  match p, s with
  | [], _ => true
  | _ :: _, [] => false
  | a :: p', b :: s' => (a =? b)%N && startswith p' s'
  end.

(** The index of the first occurrence of [sub] in [s]. *)
Fixpoint index_of (sub s : str) : option nat :=
  if startswith sub s then Some 0
  else match s with
       | [] => None
       | _ :: t => option_map S (index_of sub t)
       end.

(** [s.find(sub)]: the index, or -1. *)
Definition find (sub s : str) : Z :=
  match index_of sub s with
  | Some i => Z.of_nat i
  | None => (-1)%Z
  end.

(** [sub in s] *)
Definition contains (sub s : str) : bool :=
  match index_of sub s with Some _ => true | None => false end.

Definition len (s : str) : Z := Z.of_nat (length s).

(** The bound [k] of a slice of a sequence of length [n], as a number of
    elements: negative bounds count from the end, and both are clipped. *)
Definition slice_bound (n k : Z) : nat :=
  Z.to_nat (if (k <? 0)%Z then Z.max 0 (n + k) else Z.min k n).

(** [s[:k]] and [s[k:]] *)
Definition slice_to (s : str) (k : Z) : str := firstn (slice_bound (len s) k) s.
Definition slice_from (s : str) (k : Z) : str := skipn (slice_bound (len s) k) s.

(** [s.lstrip()], [s.rstrip()], [s.strip()] *)
Fixpoint lstrip (s : str) : str :=
  match s with
  | [] => []
  | c :: t => if isspace c then lstrip t else s
  end.

Definition rstrip (s : str) : str := rev (lstrip (rev s)).

Definition strip (s : str) : str := rstrip (lstrip s).

(** [s.split(sep)] for a separator of one character. *)
Fixpoint split_on (sep : char) (s : str) : list str :=
  match s with
  | [] => [[]]
  | c :: t =>
    if (c =? sep)%N then [] :: split_on sep t
    else match split_on sep t with
         | h :: r => (c :: h) :: r
         | [] => [[c]]
         end
  end.

(** [sep.join(parts)] *)
Fixpoint join (sep : str) (parts : list str) : str :=
  match parts with
  | [] => []
  | x :: r =>
    match r with
    | [] => x
    | _ :: _ => x ++ sep ++ join sep r
    end
  end.

(** [s.replace(old, new)]: every occurrence, left to right, without overlap.
    [skip] counts the characters of a replaced occurrence still to pass. *)
Fixpoint replace_go (old new : str) (skip : nat) (s : str) : str :=
  match s with
  | [] => []
  | c :: t =>
    match skip with
    | S k => replace_go old new k t
    | O =>
      if startswith old s
      then new ++ replace_go old new (length old - 1) t
      else c :: replace_go old new 0 t
    end
  end.

Definition replace (old new s : str) : str :=
  match old with
  | [] => new ++ flat_map (fun c => c :: new) s
  | _ :: _ => replace_go old new 0 s
  end.

(** [' ' * n] *)
Definition spaces (n : nat) : str := repeat SPACE n.

(** [str(n)] for a natural number and for an integer. *)
Definition str_of_nat (n : nat) : str :=
  py (NilEmpty.string_of_uint (Nat.to_uint n)).

Definition str_of_Z (z : Z) : str :=
  if (z <? 0)%Z then py "-" ++ str_of_nat (Z.to_nat (- z))
  else str_of_nat (Z.to_nat z).

(** Longest prefix whose characters satisfy [p], and the rest. *)
Fixpoint take_while (p : char -> bool) (s : str) : str :=
  match s with
  | [] => []
  | c :: t => if p c then c :: take_while p t else []
  end.

Fixpoint drop_while (p : char -> bool) (s : str) : str :=
  match s with
  | [] => []
  | c :: t => if p c then drop_while p t else s
  end.

(** [seq[i]] of Python: a negative index counts from the end; [None] is
    IndexError. [list_set] is [seq[i] = x]. *)
Definition norm_index {A} (l : list A) (i : Z) : option nat :=
  let n := Z.of_nat (length l) in
  if (0 <=? i)%Z && (i <? n)%Z then Some (Z.to_nat i)
  else if (- n <=? i)%Z && (i <? 0)%Z then Some (Z.to_nat (n + i))
  else None.

Definition list_get {A} (l : list A) (i : Z) : option A :=
  match norm_index l i with
  | Some k => nth_error l k
  | None => None
  end.

Fixpoint update_nth {A} (l : list A) (k : nat) (x : A) : list A :=
  match l, k with
  | [], _ => []
  | _ :: t, O => x :: t
  | h :: t, S k' => h :: update_nth t k' x
  end.

Definition list_set {A} (l : list A) (i : Z) (x : A) : option (list A) :=
  match norm_index l i with
  | Some k => Some (update_nth l k x)
  | None => None
  end.

(** ** The regular expressions of the agent *)

Section Regex.

(** [str.isalnum] on the code points from 128 up (Python's Unicode table). *)
Variable unicode_alnum : char -> bool.

(** [\w] on a [str] pattern: alphanumeric or underscore. No white-space code
    point is alphanumeric. *)
Definition is_word (c : char) : bool :=
  if (c <? 128)%N
  then ((48 <=? c) && (c <=? 57) || (65 <=? c) && (c <=? 90)
        || (97 <=? c) && (c <=? 122) || (c =? 95))%N
  else negb (isspace c) && unicode_alnum c.

(** The look-ahead [(?=\n\n|\n\[|$)]: [$] holds at the end and before a last
    newline. *)
Definition at_boundary (s : str) : bool :=
  startswith [NL; NL] s || startswith [NL; 91%N] s
  || match s with [] => true | [c] => (c =? NL)%N | _ => false end.

(** The lazy group [(.*?)] under DOTALL in front of that look-ahead. *)
Fixpoint lazy_until_boundary (s : str) : str :=
  match s with
  | [] => []
  | c :: t => if at_boundary s then [] else c :: lazy_until_boundary t
  end.

(** [re.search(r'\[TAG\]\s*(.*?)(?=\n\n|\n\[|$)', response, re.DOTALL)],
    group 1. The first occurrence of the tag matches: [\s*] takes all the
    white space and the lazy group stops at the first boundary, the end of
    the text at the latest. *)
Definition search_tagged (tag response : str) : option str :=
  match index_of tag response with
  | Some p =>
    Some (lazy_until_boundary
            (drop_while isspace (skipn (p + length tag) response)))
  | None => None
  end.

(** [:=\s*by] at the head of [s]: what follows [by]. *)
Definition intro_here (s : str) : option str :=
  if startswith (py ":=") s then
    let r := drop_while isspace (skipn 2 s) in
    if startswith (py "by") r then Some (skipn 2 r) else None
  else None.

(** [.*?:=\s*by] from the head of [s]: the lazy [.*?] passes characters other
    than newline up to the first place where [:=\s*by] matches. Returns the
    number of characters before [by] and what follows [by]. *)
Fixpoint find_intro (s : str) : option (nat * str) :=
  match intro_here s with
  | Some rest => Some (length s - length rest - 2, rest)
  | None =>
    match s with
    | [] => None
    | c :: t =>
      if (c =? NL)%N then None
      else option_map (fun '(k, rest) => (S k, rest)) (find_intro t)
    end
  end.

Record HaveMatch := {
  hm_var : str;        (* group 1 *)
  hm_proof : str;      (* group 2 *)
  hm_by : nat          (* index of the matched [by] in the subject *)
}.

(** [re.match] of the pattern [have \s+ (\w+) \s* : .*? := \s* by \s* (.* )]
    (written here with blanks between its items) on [s]. The greedy [\s+],
    [\w+] and [\s*] take maximal runs: the character after a shorter run
    would have to be at once in the run's class and in the next item's. *)
Definition match_have (s : str) : option HaveMatch :=
  if startswith (py "have") s then
    let r0 := skipn 4 s in
    let ws := take_while isspace r0 in
    let r1 := drop_while isspace r0 in
    if nonempty ws then
      let name := take_while is_word r1 in
      let r2 := drop_while is_word r1 in
      if nonempty name then
        match drop_while isspace r2 with
        | c :: r4 =>
          if (c =? 58)%N then
            match find_intro r4 with
            | Some (k, rest) =>
              Some {| hm_var := name;
                      hm_proof :=
                        take_while (fun c => negb (c =? NL)%N)
                                   (drop_while isspace rest);
                      hm_by := length s - length r4 + k |}
            | None => None
            end
          else None
        | [] => None
        end
      else None
    else None
  else None.

(** [re.sub(r'theorem\s+(\w+)', repl, code)] where [repl] gives
    ['theorem ' + name + suffix]. [skip] counts the characters of a match
    still to pass. *)
Definition theorem_here (s : str) : option (str * nat) :=
  if startswith (py "theorem") s then
    let r0 := skipn 7 s in
    let ws := take_while isspace r0 in
    let name := take_while is_word (drop_while isspace r0) in
    if nonempty ws && nonempty name
    then Some (name, 7 + length ws + length name)
    else None
  else None.

Fixpoint sub_theorem_go (suffix : str) (skip : nat) (s : str) : str :=
  match s with
  | [] => []
  | c :: t =>
    match skip with
    | S k => sub_theorem_go suffix k t
    | O =>
      match theorem_here s with
      | Some (name, n) =>
        py "theorem " ++ name ++ suffix ++ sub_theorem_go suffix (n - 1) t
      | None => c :: sub_theorem_go suffix 0 t
      end
    end
  end.

Definition sub_theorem (suffix s : str) : str := sub_theorem_go suffix 0 s.

End Regex.

End PyStr.

(* ===================================================================== *)
(** * The agent *)
(* ===================================================================== *)

Module Agent.
Import PyStr.

(** ** Data model *)

Record Position := { line : Z; column : Z }.

Record LeanMessage := {
  severity : str;                 (* 'error', 'warning', 'info' *)
  message : str;
  msg_start_pos : Position;
  msg_end_pos : Position
}.

Record ProofGoal := {
  goal_text : str;
  position : Position;
  proof_state_id : option Z
}.

Record EditableClause := {
  clause_id : str;
  start_pos : Position;
  end_pos : Position;
  content : str;
  clause_type : str
}.

(** [LeanMessage.__str__], [ProofGoal.__str__] *)
Definition message_str (m : LeanMessage) : str :=
  py "[" ++ severity m ++ py "] " ++ message m ++ py " at line "
  ++ str_of_Z (line (msg_start_pos m) + 1).

Definition goal_str (g : ProofGoal) : str :=
  py "Goal at line " ++ str_of_Z (line (position g) + 1) ++ py ": "
  ++ slice_to (goal_text g) 100 ++ py "...".

(** The [editable_clauses] dict: keys in insertion order. *)
Definition dict := list (str * EditableClause).

Fixpoint dict_get (k : str) (d : dict) : option EditableClause :=
  match d with
  | [] => None
  | (k', v) :: r => if str_eqb k k' then Some v else dict_get k r
  end.

(** [d[k] = v]: a present key keeps its place, a new key goes last. *)
Fixpoint dict_set (k : str) (v : EditableClause) (d : dict) : dict :=
  match d with
  | [] => [(k, v)]
  | (k', v') :: r =>
    if str_eqb k k' then (k', v) :: r else (k', v') :: dict_set k v r
  end.

Definition dict_keys (d : dict) : list str := map fst d.

(** What [prover.run_command] returns, as far as the agent reads it: the
    attributes [response] (a string or [None]), [has_sorry] and
    [proof_state]. *)
Record CommandResult := {
  response : option str;
  has_sorry : bool;
  proof_state : option Z
}.

Record ThreadInfo := {
  ti_thread_id : Z;
  ti_session_id : str;
  ti_instance_id : str
}.

(** The dict returned by [_compile_and_analyze]; [load_theorem] adds the
    entry [thread_info]. *)
Record CompileResult := {
  success : bool;
  has_errors : bool;
  has_warnings : bool;
  cr_has_sorry : bool;
  messages : list LeanMessage;
  goals : list ProofGoal;
  cr_editable_clauses : list str;
  cr_proof_state : option Z;
  cr_compilation_id : nat;
  raw_response : option str;
  cr_thread_info : option ThreadInfo
}.

(** The two dicts [edit_clause] returns: the one with the key [error], and
    the one of an edit that was applied. *)
Record EditApplied := {
  ea_clause_id : str;
  ea_clause_type : str;
  old_content : str;
  new_content : str;
  compilation_result : CompileResult;
  updated_code : str;
  edit_successful : bool;
  ea_thread_info : ThreadInfo
}.

Inductive EditResult :=
| EditError (error : str) (thread_info : ThreadInfo)
| EditOk (r : EditApplied).

(** The dict returned by [get_interactive_panel]. *)
Record Panel := {
  p_current_code : str;
  p_messages : list str;
  p_goals : list str;
  p_editable_clauses : list (str * str);
  p_compilation_id : nat;
  p_thread_info : ThreadInfo
}.

Inductive exn := IndexError.

Inductive outcome (A : Type) :=
| Returned (a : A)
| Raised (e : exn).
Arguments Returned {A} a.
Arguments Raised {A} e.

(** ** The scan for editable clauses *)

Section Scan.

Variable unicode_alnum : char -> bool.

(** The loop variables of [_identify_editable_clauses]. *)
Record ScanState := {
  sc_clauses : dict;
  sc_clause_id : nat;
  sc_started : bool             (* main_proof_started *)
}.

(** [state.editable_clauses[c.clause_id] = c; clause_id += 1] *)
Definition add_clause (sc : ScanState) (c : EditableClause) : ScanState :=
  {| sc_clauses := dict_set (clause_id c) c (sc_clauses sc);
     sc_clause_id := S (sc_clause_id sc);
     sc_started := sc_started sc |}.

Definition set_started (sc : ScanState) : ScanState :=
  {| sc_clauses := sc_clauses sc;
     sc_clause_id := sc_clause_id sc;
     sc_started := true |}.

Definition tactic_prefixes : list str :=
  map py ["intro "; "exact "; "apply "; "rw "; "simp"; "trivial";
          "rfl"; "constructor"; "cases "; "induction "; "unfold ";
          "left"; "right"; "split"; "exfalso"; "contradiction"]%string.

(** The body of the loop for line [i]. In the [theorem] branch,
    [stripped.split(':= by', 1)[1]] is what follows the first [:= by], which
    is there by the test before it. *)
Definition scan_line (i : nat) (ln : str) (sc : ScanState) : ScanState :=
  let stripped := strip ln in
  let n := sc_clause_id sc in
  let here := Z.of_nat i in
  if negb (nonempty stripped) || startswith (py "--") stripped then sc
  else if startswith (py "theorem") stripped then
    match index_of (py ":= by") stripped with
    | Some p =>
      let by_part := strip (skipn (p + 5) stripped) in
      set_started
        (if nonempty by_part
         then add_clause sc
                {| clause_id := py "main_proof_" ++ str_of_nat n;
                   start_pos := {| line := here;
                                   column := find (py ":= by") stripped + 5 |};
                   end_pos := {| line := here; column := len ln |};
                   content := by_part;
                   clause_type := py "main_proof" |}
         else sc)
    | None => sc
    end
  else if sc_started sc then
    if startswith (py "have ") stripped then
      match match_have unicode_alnum stripped with
      | Some m =>
        let proof_content := strip (hm_proof m) in
        add_clause sc
          {| clause_id := py "have_" ++ hm_var m;
             start_pos := {| line := here; column := find (py "by") ln + 3 |};
             end_pos := {| line := here; column := len ln |};
             content := if nonempty proof_content then proof_content
                        else py "sorry";
             clause_type := py "have" |}
      | None => sc
      end
    else if contains (py "sorry") stripped then
      let sorry_pos := find (py "sorry") ln in
      add_clause sc
        {| clause_id := py "sorry_" ++ str_of_nat n;
           start_pos := {| line := here; column := sorry_pos |};
           end_pos := {| line := here; column := sorry_pos + 5 |};
           content := py "sorry";
           clause_type := py "sorry" |}
    else if startswith (py "by ") stripped then
      add_clause sc
        {| clause_id := py "tactic_block_" ++ str_of_nat n;
           start_pos := {| line := here; column := find (py "by") ln + 3 |};
           end_pos := {| line := here; column := len ln |};
           content := strip (slice_from stripped 3);
           clause_type := py "tactic_block" |}
    else if existsb (fun t => startswith t stripped) tactic_prefixes then
      add_clause sc
        {| clause_id := py "tactic_" ++ str_of_nat n;
           start_pos := {| line := here; column := 0 |};
           end_pos := {| line := here; column := len ln |};
           content := stripped;
           clause_type := py "tactic" |}
    else if nonempty stripped && negb (startswith (py "theorem") stripped) then
      add_clause sc
        {| clause_id := py "proof_line_" ++ str_of_nat n;
           start_pos := {| line := here; column := 0 |};
           end_pos := {| line := here; column := len ln |};
           content := stripped;
           clause_type := py "proof_line" |}
    else sc
  else sc.

(** [for i, line in enumerate(lines)], from index [i] on. *)
Fixpoint scan_from (i : nat) (lines : list str) (sc : ScanState) : ScanState :=
  match lines with
  | [] => sc
  | ln :: rest => scan_from (S i) rest (scan_line i ln sc)
  end.

Definition scan_start : ScanState :=
  {| sc_clauses := []; sc_clause_id := 0; sc_started := false |}.

(** [_identify_editable_clauses]: the new value of [editable_clauses], from
    [current_code]. *)
Definition identify_editable_clauses (code : str) : dict :=
  sc_clauses (scan_from 0 (split_on NL code) scan_start).

End Scan.

(** ** The session *)

Section Session.

(** The prover object of a session and its one method the agent calls. *)
Variable Prover : Type.
Variable run_command : Prover -> str -> Prover * CommandResult.

Variable unicode_alnum : char -> bool.

(** What [_get_agent_state] draws when it creates the state of a thread:
    the new prover, [threading.get_ident()] and the start of a fresh UUID;
    and the agent's [_instance_id]. *)
Variable new_prover : Prover.
Variable ident : Z.
Variable fresh_session_id : str.
Variable instance_id : str.

(** The thread-local state. *)
Record AgentState := {
  prover : Prover;
  current_code : str;
  current_messages : list LeanMessage;
  current_goals : list ProofGoal;
  editable_clauses : dict;
  compilation_id : nat;
  thread_id : Z;
  session_id : str
}.

(** The state [_get_agent_state] creates on the first access of a thread;
    every method starts from it. *)
Definition initial_state : AgentState :=
  {| prover := new_prover;
     current_code := [];
     current_messages := [];
     current_goals := [];
     editable_clauses := [];
     compilation_id := 0;
     thread_id := ident;
     session_id := fresh_session_id |}.

Definition thread_info_of (st : AgentState) : ThreadInfo :=
  {| ti_thread_id := ident;
     ti_session_id := session_id st;
     ti_instance_id := instance_id |}.

(** [_make_thread_unique_code] *)
Definition make_thread_unique_code (code : str) (tid : Z) (sid : str) : str :=
  sub_theorem unicode_alnum
    (py "_t" ++ str_of_Z (tid mod 10000) ++ py "_s" ++ sid) code.

Definition origin : Position := {| line := 0; column := 0 |}.

Definition mk_message (sev text : str) : LeanMessage :=
  {| severity := sev; message := text;
     msg_start_pos := origin; msg_end_pos := origin |}.

(** One of the three blocks of [_parse_messages]: [if tag in response], then
    [re.search], then [if match]. *)
Definition tagged_message (sev response : str) : list LeanMessage :=
  let tag := py "[" ++ sev ++ py "]" in
  if contains tag response then
    match search_tagged tag response with
    | Some text => [mk_message sev (strip text)]
    | None => []
    end
  else [].

(** [_parse_messages]: the new value of [current_messages]. *)
Definition parse_messages (result : CommandResult) : list LeanMessage :=
  let msgs :=
    match response result with
    | Some r =>
      if nonempty r
      then tagged_message (py "error") r ++ tagged_message (py "warning") r
           ++ tagged_message (py "info") r
      else []
    | None => []
    end in
  match response result with
  | Some r =>
    if nonempty r && str_eqb (strip r) (py "Success")
    then msgs ++ [mk_message (py "info") (py "Compilation successful")]
    else match msgs with
         | [] => [mk_message (py "info") (py "Compilation completed")]
         | _ :: _ => msgs
         end
  | None =>
    match msgs with
    | [] => [mk_message (py "info") (py "Compilation completed")]
    | _ :: _ => msgs
    end
  end.

(** The loop of [_parse_goals] from line [i] on. *)
Fixpoint sorry_goals (i : nat) (lines : list str) (ps : option Z)
  : list ProofGoal :=
  match lines with
  | [] => []
  | ln :: rest =>
    (if contains (py "sorry") ln
     then [{| goal_text := py "Goal at sorry on line " ++ str_of_nat (i + 1);
              position := {| line := Z.of_nat i;
                             column := find (py "sorry") ln |};
              proof_state_id := ps |}]
     else [])
    ++ sorry_goals (S i) rest ps
  end.

(** [_parse_goals]: the new value of [current_goals]. *)
Definition parse_goals (code : str) (result : CommandResult) : list ProofGoal :=
  match response result with
  | Some r =>
    if nonempty r then sorry_goals 0 (split_on NL code) (proof_state result)
    else []
  | None => []
  end.

Definition has_severity (sev : str) (msgs : list LeanMessage) : bool :=
  existsb (fun m => str_eqb (severity m) sev) msgs.

(** [_compile_and_analyze] *)
Definition compile_and_analyze (st : AgentState) (unique_code : str)
  : AgentState * CompileResult :=
  let cid := S (compilation_id st) in
  let (prover', result) := run_command (prover st) unique_code in
  let msgs := parse_messages result in
  let gls := parse_goals (current_code st) result in
  let clauses := identify_editable_clauses unicode_alnum (current_code st) in
  let st' := {| prover := prover';
                current_code := current_code st;
                current_messages := msgs;
                current_goals := gls;
                editable_clauses := clauses;
                compilation_id := cid;
                thread_id := thread_id st;
                session_id := session_id st |} in
  let errors := has_severity (py "error") msgs in
  (st', {| success := negb errors;
           has_errors := errors;
           has_warnings := has_severity (py "warning") msgs;
           cr_has_sorry := has_sorry result;
           messages := msgs;
           goals := gls;
           cr_editable_clauses := dict_keys clauses;
           cr_proof_state := proof_state result;
           cr_compilation_id := cid;
           raw_response := response result;
           cr_thread_info := None |}).

Definition set_current_code (st : AgentState) (code : str) : AgentState :=
  {| prover := prover st;
     current_code := code;
     current_messages := current_messages st;
     current_goals := current_goals st;
     editable_clauses := editable_clauses st;
     compilation_id := compilation_id st;
     thread_id := thread_id st;
     session_id := session_id st |}.

Definition with_thread_info (r : CompileResult) (ti : ThreadInfo)
  : CompileResult :=
  {| success := success r;
     has_errors := has_errors r;
     has_warnings := has_warnings r;
     cr_has_sorry := cr_has_sorry r;
     messages := messages r;
     goals := goals r;
     cr_editable_clauses := cr_editable_clauses r;
     cr_proof_state := cr_proof_state r;
     cr_compilation_id := cr_compilation_id r;
     raw_response := raw_response r;
     cr_thread_info := Some ti |}.

(** [load_theorem] *)
Definition load_theorem (st : AgentState) (theorem_code : str)
  : AgentState * CompileResult :=
  let st1 := set_current_code st theorem_code in
  let modified_code :=
    make_thread_unique_code theorem_code ident (session_id st1) in
  let (st2, result) := compile_and_analyze st1 modified_code in
  (st2, with_thread_info result (thread_info_of st1)).

(** The new line [edit_clause] builds for a clause on the line [ln]. *)
Definition edited_line (clause : EditableClause) (ln new : str) : str :=
  let ty := clause_type clause in
  if str_eqb ty (py "sorry") then
    replace (py "sorry") new ln
  else if str_eqb ty (py "have") then
    let by_pos := find (py "by") ln in
    if negb (by_pos =? -1)%Z
    then slice_to ln (by_pos + 2) ++ py " " ++ new
    else ln
  else if str_eqb ty (py "main_proof") then
    let by_pos := find (py ":= by") ln in
    if negb (by_pos =? -1)%Z
    then slice_to ln (by_pos + 5) ++ py " " ++ new
    else ln
  else if str_eqb ty (py "tactic_block") then
    let by_pos := find (py "by") ln in
    if negb (by_pos =? -1)%Z
    then slice_to ln (by_pos + 2) ++ py " " ++ new
    else ln
  else if str_eqb ty (py "tactic") || str_eqb ty (py "proof_line") then
    let indent := length ln - length (lstrip ln) in
    spaces indent ++ new
  else
    let start_col := column (start_pos clause) in
    slice_to ln start_col ++ new.

(** [edit_clause]. The two subscripts [lines[line_idx]] raise IndexError
    when the index is out of range. *)
Definition edit_clause (st : AgentState) (cid new : str)
  : AgentState * outcome EditResult :=
  match dict_get cid (editable_clauses st) with
  | None =>
    (st, Returned (EditError (py "Clause '" ++ cid ++ py "' not found")
                             (thread_info_of st)))
  | Some clause =>
    let lines := split_on NL (current_code st) in
    let line_idx := line (start_pos clause) in
    match list_get lines line_idx with
    | None => (st, Raised IndexError)
    | Some ln =>
      let new_line := edited_line clause ln new in
      match list_set lines line_idx new_line with
      | None => (st, Raised IndexError)
      | Some lines' =>
        let st1 := set_current_code st (join [NL] lines') in
        let modified_code :=
          make_thread_unique_code (current_code st1) (thread_id st1)
                                  (session_id st1) in
        let (st2, compile_result) := compile_and_analyze st1 modified_code in
        (st2, Returned (EditOk
           {| ea_clause_id := cid;
              ea_clause_type := clause_type clause;
              old_content := content clause;
              new_content := new;
              compilation_result := compile_result;
              updated_code := current_code st2;
              edit_successful := true;
              ea_thread_info := thread_info_of st2 |}))
      end
    end
  end.

(** The first loop of [add_proof_structure]. *)
Definition indent_line (ln : str) : list str :=
  if nonempty (strip ln) then
    if negb (startswith (py "  ") ln) then [py "  " ++ strip ln]
    else [rstrip ln]
  else [].

Definition is_main_proof_id (cid : str) : bool :=
  startswith (py "main_proof_") cid || startswith (py "sorry_") cid.

(** [add_proof_structure] *)
Definition add_proof_structure (st : AgentState) (structure_lines : list str)
  : AgentState * outcome EditResult :=
  let indented_lines := flat_map indent_line structure_lines in
  let new_structure := join [NL] indented_lines in
  let main_proof_clauses :=
    filter is_main_proof_id (dict_keys (editable_clauses st)) in
  match main_proof_clauses with
  | [] =>
    (st, Returned (EditError
                     (py "No main proof clause found to add structure to")
                     (thread_info_of st)))
  | cid :: _ => edit_clause st cid new_structure
  end.

(** [get_interactive_panel]; the state is returned with the panel to show
    what the call leaves of it. *)
Definition get_interactive_panel (st : AgentState) : AgentState * Panel :=
  (st, {| p_current_code := current_code st;
          p_messages := map message_str (current_messages st);
          p_goals := map goal_str (current_goals st);
          p_editable_clauses :=
            map (fun kc => (fst kc,
                            clause_type (snd kc) ++ py ": " ++ content (snd kc)))
                (editable_clauses st);
          p_compilation_id := compilation_id st;
          p_thread_info := thread_info_of st |}).

(** The states of a session: what the methods make of the initial state. *)
Inductive reachable : AgentState -> Prop :=
| reach_init : reachable initial_state
| reach_load st code :
    reachable st -> reachable (fst (load_theorem st code))
| reach_edit st cid new :
    reachable st -> reachable (fst (edit_clause st cid new))
| reach_add st structure_lines :
    reachable st -> reachable (fst (add_proof_structure st structure_lines))
| reach_panel st :
    reachable st -> reachable (fst (get_interactive_panel st)).

(** The clause map is the scan of the current document. *)
Definition derived (st : AgentState) : Prop :=
  editable_clauses st
  = identify_editable_clauses unicode_alnum (current_code st).

End Session.

End Agent.

(* ===================================================================== *)
(** * What the scan records, as a relation *)
(* ===================================================================== *)

Module ScanSpec.
Import PyStr Agent.

Section ScanSpec.

Variable unicode_alnum : char -> bool.

Definition whole_line (i : nat) (ln : str) (col : Z) : Position * Position :=
  ({| line := Z.of_nat i; column := col |},
   {| line := Z.of_nat i; column := len ln |}).

(** [clause_on_line i ln n c]: [c] is a clause that the loop body records
    for the line [ln] of index [i] when the counter stands at [n]. *)
Inductive clause_on_line (i : nat) (ln : str) (n : nat)
  : EditableClause -> Prop :=
| on_main_proof p :
    index_of (py ":= by") (strip ln) = Some p ->
    clause_on_line i ln n
      {| clause_id := py "main_proof_" ++ str_of_nat n;
         start_pos := fst (whole_line i ln (Z.of_nat p + 5));
         end_pos := snd (whole_line i ln 0);
         content := strip (skipn (p + 5) (strip ln));
         clause_type := py "main_proof" |}
| on_have m :
    match_have unicode_alnum (strip ln) = Some m ->
    clause_on_line i ln n
      {| clause_id := py "have_" ++ hm_var m;
         start_pos := fst (whole_line i ln (find (py "by") ln + 3));
         end_pos := snd (whole_line i ln 0);
         content := if nonempty (strip (hm_proof m)) then strip (hm_proof m)
                    else py "sorry";
         clause_type := py "have" |}
| on_sorry :
    contains (py "sorry") (strip ln) = true ->
    clause_on_line i ln n
      {| clause_id := py "sorry_" ++ str_of_nat n;
         start_pos := {| line := Z.of_nat i; column := find (py "sorry") ln |};
         end_pos := {| line := Z.of_nat i;
                       column := find (py "sorry") ln + 5 |};
         content := py "sorry";
         clause_type := py "sorry" |}
| on_tactic_block :
    startswith (py "by ") (strip ln) = true ->
    clause_on_line i ln n
      {| clause_id := py "tactic_block_" ++ str_of_nat n;
         start_pos := fst (whole_line i ln (find (py "by") ln + 3));
         end_pos := snd (whole_line i ln 0);
         content := strip (slice_from (strip ln) 3);
         clause_type := py "tactic_block" |}
| on_tactic :
    clause_on_line i ln n
      {| clause_id := py "tactic_" ++ str_of_nat n;
         start_pos := fst (whole_line i ln 0);
         end_pos := snd (whole_line i ln 0);
         content := strip ln;
         clause_type := py "tactic" |}
| on_proof_line :
    clause_on_line i ln n
      {| clause_id := py "proof_line_" ++ str_of_nat n;
         start_pos := fst (whole_line i ln 0);
         end_pos := snd (whole_line i ln 0);
         content := strip ln;
         clause_type := py "proof_line" |}.

(** The entries whose key [add_proof_structure] looks for, and their lines. *)
Definition main_entries (d : dict) : dict :=
  filter (fun kc => is_main_proof_id (fst kc)) d.

Definition main_lines (d : dict) : list Z :=
  map (fun kc => line (start_pos (snd kc))) (main_entries d).

(** The invariant of the scan loop before the line of index [idx], over the
    lines [lines] of the document. *)
Record scan_inv (lines : list str) (idx : nat) (sc : ScanState) : Prop := {
  inv_nodup : NoDup (dict_keys (sc_clauses sc));
  inv_entries :
    forall k c, In (k, c) (sc_clauses sc) ->
      k = clause_id c /\
      exists i ln m, i < idx /\ nth_error lines i = Some ln /\
                     m < sc_clause_id sc /\ clause_on_line i ln m c;
  inv_sorted : StronglySorted Z.lt (main_lines (sc_clauses sc))
}.

End ScanSpec.

End ScanSpec.

(* ===================================================================== *)
(** * An edit that is applied, in closed form *)
(* ===================================================================== *)

Module EditSpec.
Import PyStr Agent.

Section EditSpec.

Variable Prover : Type.
Variable run_command : Prover -> str -> Prover * CommandResult.
Variable unicode_alnum : char -> bool.
Variable ident : Z.
Variable instance_id : str.

(** The state and the result of [edit_clause] for a clause [c] on the line
    [ln] of index [i]: the line becomes [edited_line c ln new], the document
    is joined again and compiled. *)
Definition edit_outcome (st : AgentState Prover) (cid new : str)
           (c : EditableClause) (i : nat) (ln : str)
  : AgentState Prover * outcome EditResult :=
  let lines := split_on NL (current_code st) in
  let st1 :=
    set_current_code st
      (join [NL] (update_nth lines i (edited_line c ln new))) in
  let cr :=
    compile_and_analyze run_command unicode_alnum st1
      (make_thread_unique_code unicode_alnum (current_code st1)
                               (thread_id st1) (session_id st1)) in
  (fst cr,
   Returned (EditOk
     {| ea_clause_id := cid;
        ea_clause_type := clause_type c;
        old_content := content c;
        new_content := new;
        compilation_result := snd cr;
        updated_code := current_code st1;
        edit_successful := true;
        ea_thread_info := thread_info_of ident instance_id st |})).

(** [st'] is [st] verified once more: the same document and clause map, the
    counter one higher, the prover run once on the document with its theorem
    names made unique. *)
Definition reverified (st st' : AgentState Prover) : Prop :=
  current_code st' = current_code st /\
  editable_clauses st' = editable_clauses st /\
  compilation_id st' = S (compilation_id st) /\
  prover st'
  = fst (run_command (prover st)
           (make_thread_unique_code unicode_alnum (current_code st)
                                    (thread_id st) (session_id st))).

End EditSpec.

End EditSpec.

(* ===================================================================== *)
(** * Sessions used in the examples *)
(* ===================================================================== *)

Module Demo.
Import PyStr Agent.

(** The documents of the examples are ASCII with a few mathematical symbols,
    none of them alphanumeric. *)
Definition no_unicode_alnum : char -> bool := fun _ => false.

(** A prover without state that answers every command with [text]. *)
Definition reply (text : string) (p : unit) (code : str)
  : unit * CommandResult :=
  (tt, {| response := Some (py text); has_sorry := false;
          proof_state := None |}).

Definition ident : Z := 140737.
Definition session : str := py "5f3a9c1e".
Definition instance : str := py "a1b2c3d4".

Definition start : AgentState unit := initial_state tt ident session.

Definition load (text : string) :=
  load_theorem (reply text) no_unicode_alnum ident instance.
Definition edit (text : string) :=
  edit_clause (reply text) no_unicode_alnum ident instance.
Definition add (text : string) :=
  add_proof_structure (reply text) no_unicode_alnum ident instance.

Definition reachable (text : string) :=
  Agent.reachable (reply text) no_unicode_alnum tt ident session instance.

Definition lines_of (parts : list string) : str := join [NL] (map py parts).

(** The document of the specification's example. *)
Definition swap_doc : str :=
  py "theorem t (A B : Prop) : A ∧ B → B ∧ A := by sorry".

Definition swap_proof : str := py "intro h; exact ⟨h.right, h.left⟩".

(** The one clause of that document, with the end column and the text. *)
Definition swap_clause (end_col : Z) (text : str) : EditableClause :=
  {| clause_id := py "main_proof_0";
     start_pos := {| line := 0; column := 44 |};
     end_pos := {| line := 0; column := end_col |};
     content := text;
     clause_type := py "main_proof" |}.

Definition swap_done : str :=
  py "theorem t (A B : Prop) : A ∧ B → B ∧ A := by intro h; exact ⟨h.right, h.left⟩".

(** A [have] whose proof starts on the next line. *)
Definition open_have_doc : str :=
  lines_of ["theorem t : True := by";
            "  have h : True := by";
            "    trivial"]%string.

(** Two placeholders on one line. *)
Definition two_sorry_doc : str :=
  lines_of ["theorem t : True ∧ True := by";
            "  exact ⟨sorry, sorry⟩"]%string.

(** A hypothesis whose name contains [by]. *)
Definition hby_doc : str :=
  lines_of ["theorem t : True := by";
            "  have hby : True := by sorry";
            "  exact hby"]%string.

(** A tactic line indented with a tab, and one with a blank at its end. *)
Definition tab_doc : str :=
  join [NL] [py "theorem t : True := by"; 9%N :: py "trivial"].

Definition trailing_blank_doc : str :=
  lines_of ["theorem t : True := by";
            "  trivial "]%string.

(** The demonstration document of the source. *)
Definition demo_doc : str :=
  lines_of ["theorem interactive_demo (P Q R : Prop) : (P ∧ Q) ∧ R → P ∧ (Q ∧ R) := by";
            "  have h1 : (P ∧ Q) ∧ R → P ∧ Q := by sorry";
            "  have h2 : (P ∧ Q) ∧ R → R := by sorry";
            "  have h3 : P ∧ Q → P := by sorry";
            "  have h4 : P ∧ Q → Q := by sorry";
            "  intro h";
            "  exact ⟨h3 (h1 h), ⟨h4 (h1 h), h2 h⟩⟩"]%string.

(** A proof with a placeholder on a line of its own. *)
Definition sorry_doc : str :=
  lines_of ["theorem t : True := by";
            "  sorry"]%string.

End Demo.

(* ===================================================================== *)
(** * The queries on a session *)
(* ===================================================================== *)

Module Queries.
Import PyStr Agent.

Section Queries.

Variable Prover : Type.

(** [get_goal_at_position]: the first goal on the line; the column is not
    read. *)
Definition get_goal_at_position (st : AgentState Prover) (ln col : Z)
  : option ProofGoal :=
  List.find (fun g => (line (position g) =? ln)%Z) (current_goals st).

(** [get_messages_at_position]: the messages whose lines span the line; the
    column is not read. *)
Definition get_messages_at_position (st : AgentState Prover) (ln col : Z)
  : list LeanMessage :=
  filter (fun m => (line (msg_start_pos m) <=? ln)%Z
                   && (ln <=? line (msg_end_pos m))%Z)
         (current_messages st).

Definition is_nil {A} (l : list A) : bool :=
  match l with [] => true | _ :: _ => false end.

(** [suggest_next_actions] *)
Definition suggest_next_actions (st : AgentState Prover) : list str :=
  let error_messages :=
    filter (fun m => str_eqb (severity m) (py "error")) (current_messages st) in
  let suggestions1 :=
    if is_nil error_messages then []
    else [py "Fix compilation errors first"] in
  let sorry_clauses :=
    map fst (filter (fun kc => str_eqb (clause_type (snd kc)) (py "sorry"))
                    (editable_clauses st)) in
  let suggestions2 :=
    if is_nil sorry_clauses then suggestions1
    else suggestions1
         ++ [py "Work on sorry clauses: " ++ join (py ", ") sorry_clauses] in
  let warning_messages :=
    filter (fun m => str_eqb (severity m) (py "warning"))
           (current_messages st) in
  let suggestions3 :=
    if is_nil warning_messages then suggestions2
    else suggestions2 ++ [py "Address compiler warnings"] in
  if is_nil suggestions3 then [py "Proof looks complete!"] else suggestions3.

End Queries.

End Queries.

(* ===================================================================== *)
(** * Lines and categories, for the statements about the scan *)
(* ===================================================================== *)

Module LineSpec.
Import PyStr Agent.

(** A line that opens the proof: its text starts with [theorem] and holds
    [:= by]. *)
Definition opens_proof (ln : str) : bool :=
  startswith (py "theorem") (strip ln) && contains (py ":= by") (strip ln).

(** A line the scan does not pass over: not blank and not a comment. *)
Definition scanned_line (ln : str) : bool :=
  nonempty (strip ln) && negb (startswith (py "--") (strip ln)).

(** The categories of [edit_clause] that have a rule of their own. *)
Definition categories : list str :=
  map py ["main_proof"; "have"; "sorry"; "tactic_block"; "tactic";
          "proof_line"]%string.

(** What holds of a clause [c] of the map over the lines [lines]: it is on a
    scanned line, at or after a line that opens the proof, and has one of
    the six categories. *)
Definition placed (lines : list str) (c : EditableClause) : Prop :=
  exists i ln,
    line (start_pos c) = Z.of_nat i /\
    line (end_pos c) = Z.of_nat i /\
    nth_error lines i = Some ln /\
    scanned_line ln = true /\
    In (clause_type c) categories /\
    exists j lj, j <= i /\ nth_error lines j = Some lj /\ opens_proof lj = true.

(** The second invariant of the scan loop before the line of index [idx]. *)
Record placed_inv (lines : list str) (idx : nat) (sc : ScanState) : Prop := {
  pl_entries :
    forall k c, In (k, c) (sc_clauses sc) ->
      placed lines c /\ (line (start_pos c) < Z.of_nat idx)%Z;
  pl_started :
    sc_started sc = true ->
    exists j lj, j < idx /\ nth_error lines j = Some lj /\
                 opens_proof lj = true;
  pl_not_started : sc_started sc = false -> sc_clauses sc = [];
  pl_lines : NoDup (map (fun kc => line (start_pos (snd kc))) (sc_clauses sc))
}.

(** The goal [_parse_goals] records for the line [ln] of index [i]. *)
Definition sorry_goal (i : nat) (ln : str) (ps : option Z) : ProofGoal :=
  {| goal_text := py "Goal at sorry on line " ++ str_of_nat (i + 1);
     position := {| line := Z.of_nat i; column := find (py "sorry") ln |};
     proof_state_id := ps |}.

(** An answer with a text that is not empty: the condition under which
    [_parse_messages] and [_parse_goals] read it. *)
Definition has_text (res : CommandResult) : bool :=
  match response res with
  | Some r => nonempty r
  | None => false
  end.

(** The goals of a session are none, or those of the lines of its document
    that hold [sorry]. *)
Definition goals_of_document {Prover} (st : AgentState Prover) : Prop :=
  current_goals st = [] \/
  exists ps, current_goals st
             = sorry_goals 0 (split_on NL (current_code st)) ps.

End LineSpec.

(* ===================================================================== *)
(** * More example documents *)
(* ===================================================================== *)

Module DemoDocs.
Import PyStr Agent.

(** A theorem whose [by] is on the next line: no line opens the proof. *)
Definition late_by_doc : str :=
  Demo.lines_of ["theorem t : True :=";
                 "  by sorry"]%string.

(** A proof with a tactic block and a placeholder. *)
Definition block_doc : str :=
  Demo.lines_of ["-- a small proof";
                 "theorem t : True ∧ True := by";
                 "  constructor";
                 "  by trivial";
                 "";
                 "  sorry"]%string.

(** A tactic block with two blanks after its [by]. *)
Definition wide_block_doc : str :=
  Demo.lines_of ["theorem t : True := by";
                 "  by  trivial"]%string.

(** A proof on the line of the theorem, indented. *)
Definition inline_doc : str :=
  Demo.lines_of ["  theorem inline (n : Nat) : n = n := by   rfl  "]%string.

Definition panel := get_interactive_panel (Prover := unit)
                      Demo.ident Demo.instance.

Definition info : ThreadInfo :=
  {| ti_thread_id := Demo.ident;
     ti_session_id := Demo.session;
     ti_instance_id := Demo.instance |}.

End DemoDocs.

(* ===================================================================== *)
(** * Facts about the string functions *)
(* ===================================================================== *)

Unset Implicit Arguments.

Module PyStrFacts.
Import PyStr.

Lemma str_eqb_eq (a b : str) : str_eqb a b = true <-> a = b.
Proof.
  unfold str_eqb. destruct (list_eq_dec N.eq_dec a b); split; congruence.
Qed.

Lemma str_eqb_refl (a : str) : str_eqb a a = true.
Proof. now apply str_eqb_eq. Qed.

Lemma str_eqb_neq (a b : str) : str_eqb a b = false <-> a <> b.
Proof.
  unfold str_eqb. destruct (list_eq_dec N.eq_dec a b); split; congruence.
Qed.

(** ** [startswith] and [index_of] *)

Lemma startswith_app (p r : str) : startswith p (p ++ r) = true.
Proof.
  induction p as [|a p IH]; simpl; [reflexivity|].
  now rewrite N.eqb_refl, IH.
Qed.

Lemma startswith_split (p s : str) :
  startswith p s = true -> s = p ++ skipn (length p) s.
Proof.
  revert s. induction p as [|a p IH]; intros s H; simpl in *; [reflexivity|].
  destruct s as [|b s]; [discriminate|].
  apply andb_prop in H. destruct H as [Hab Hp].
  apply N.eqb_eq in Hab. subst b. f_equal. now apply IH.
Qed.

Lemma startswith_length (p s : str) :
  startswith p s = true -> length p <= length s.
Proof.
  intros H. apply startswith_split in H.
  rewrite H, length_app. lia.
Qed.

Lemma startswith_trans (p q s : str) :
  startswith p q = true -> startswith q s = true -> startswith p s = true.
Proof.
  intros Hpq Hqs. apply startswith_split in Hpq, Hqs.
  rewrite Hqs, Hpq, <- app_assoc. apply startswith_app.
Qed.

Lemma index_of_startswith (sub s : str) (p : nat) :
  index_of sub s = Some p -> startswith sub (skipn p s) = true.
Proof.
  revert p. induction s as [|c s IH]; intros p H; simpl in H.
  - destruct (startswith sub []) eqn:E; [|discriminate].
    injection H as <-. exact E.
  - destruct (startswith sub (c :: s)) eqn:E.
    + injection H as <-. exact E.
    + destruct (index_of sub s) as [q|]; [|discriminate].
      injection H as <-. simpl. now apply IH.
Qed.

Lemma index_of_bound (sub s : str) (p : nat) :
  index_of sub s = Some p -> p + length sub <= length s.
Proof.
  revert p. induction s as [|c s IH]; intros p H; simpl in H.
  - destruct (startswith sub []) eqn:E; [|discriminate].
    injection H as <-. apply startswith_length in E. simpl in *. lia.
  - destruct (startswith sub (c :: s)) eqn:E.
    + injection H as <-. apply startswith_length in E. simpl in *. lia.
    + destruct (index_of sub s) as [q|]; [|discriminate].
      injection H as <-. specialize (IH q eq_refl). simpl. lia.
Qed.

Lemma index_of_split (sub s : str) (p : nat) :
  index_of sub s = Some p ->
  s = firstn p s ++ sub ++ skipn (p + length sub) s.
Proof.
  intros H. pose proof (index_of_startswith _ _ _ H) as Hs.
  apply startswith_split in Hs.
  rewrite skipn_skipn in Hs. rewrite (Nat.add_comm p).
  rewrite <- Hs. symmetry. apply firstn_skipn.
Qed.

Lemma contains_index_of (sub s : str) :
  contains sub s = true -> exists p, index_of sub s = Some p.
Proof.
  unfold contains. destruct (index_of sub s) as [p|]; [eauto|discriminate].
Qed.

Lemma find_index_of (sub s : str) (p : nat) :
  index_of sub s = Some p -> find sub s = Z.of_nat p.
Proof. unfold find. now intros ->. Qed.

(** ** [split_on] and [join] *)

Lemma split_on_nonempty (sep : char) (s : str) : split_on sep s <> [].
Proof.
  induction s as [|c s IH]; simpl; [discriminate|].
  destruct (c =? sep)%N; [discriminate|].
  destruct (split_on sep s); [contradiction|discriminate].
Qed.

Lemma join_split (sep : char) (s : str) : join [sep] (split_on sep s) = s.
Proof.
  induction s as [|c s IH]; simpl; [reflexivity|].
  destruct (c =? sep)%N eqn:E.
  - apply N.eqb_eq in E. subst c.
    pose proof (split_on_nonempty sep s) as Hne.
    destruct (split_on sep s) as [|h r]; [contradiction|].
    simpl in *. now rewrite IH.
  - pose proof (split_on_nonempty sep s) as Hne.
    destruct (split_on sep s) as [|h r]; [contradiction|].
    simpl in *. destruct r; simpl in *; now rewrite <- IH.
Qed.

Lemma split_on_app (sep : char) (a b : str) :
  split_on sep (a ++ sep :: b) = split_on sep a ++ split_on sep b.
Proof.
  induction a as [|c a IH]; simpl.
  - now rewrite N.eqb_refl.
  - destruct (c =? sep)%N; rewrite IH; [reflexivity|].
    pose proof (split_on_nonempty sep a) as Hne.
    destruct (split_on sep a); [contradiction|reflexivity].
Qed.

Lemma split_on_free (sep : char) (s : str) :
  ~ In sep s -> split_on sep s = [s].
Proof.
  induction s as [|c s IH]; intros H; simpl; [reflexivity|].
  destruct (c =? sep)%N eqn:E.
  - apply N.eqb_eq in E. subst c. exfalso. apply H. now left.
  - rewrite IH; [reflexivity|]. intros Hin. apply H. now right.
Qed.

Lemma split_on_parts_free (sep : char) (s : str) :
  Forall (fun l => ~ In sep l) (split_on sep s).
Proof.
  induction s as [|c s IH]; simpl.
  - constructor; [intros []|constructor].
  - destruct (c =? sep)%N eqn:E.
    + constructor; [intros []|exact IH].
    + destruct (split_on sep s) as [|h r]; simpl.
      * constructor; [|constructor]. intros [->|[]].
        now rewrite N.eqb_refl in E.
      * inversion IH as [|? ? Hh Hr]; subst. constructor; [|exact Hr].
        intros [->|Hin]; [now rewrite N.eqb_refl in E|now apply Hh].
Qed.

Lemma split_on_join (sep : char) (parts : list str) :
  parts <> [] ->
  split_on sep (join [sep] parts) = flat_map (split_on sep) parts.
Proof.
  induction parts as [|x r IH]; intros Hne; [contradiction|].
  destruct r as [|y r].
  - simpl. now rewrite app_nil_r.
  - change (join [sep] (x :: y :: r)) with (x ++ sep :: join [sep] (y :: r)).
    rewrite split_on_app, IH by discriminate. reflexivity.
Qed.

Lemma flat_map_split_free (sep : char) (parts : list str) :
  Forall (fun l => ~ In sep l) parts ->
  flat_map (split_on sep) parts = parts.
Proof.
  induction 1 as [|x r Hx Hr IH]; simpl; [reflexivity|].
  now rewrite split_on_free, IH.
Qed.

Lemma update_nth_split {A} (l : list A) (k : nat) (x y : A) :
  nth_error l k = Some y ->
  update_nth l k x = firstn k l ++ x :: skipn (S k) l.
Proof.
  revert k. induction l as [|h t IH]; intros [|k] H; simpl in *;
    try discriminate; [reflexivity|].
  f_equal. now apply IH.
Qed.

Lemma update_nth_same {A} (l : list A) (k : nat) (x : A) :
  nth_error l k = Some x -> update_nth l k x = l.
Proof.
  revert k. induction l as [|h t IH]; intros [|k] H; simpl in *;
    try discriminate.
  - now injection H as ->.
  - f_equal. now apply IH.
Qed.

(** The lines of a document after one of them is replaced: the lines before
    and after it stay, and the new text contributes its own lines. *)
Lemma split_on_join_update (sep : char) (code new ln : str) (k : nat) :
  nth_error (split_on sep code) k = Some ln ->
  split_on sep (join [sep] (update_nth (split_on sep code) k new))
  = firstn k (split_on sep code) ++ split_on sep new
    ++ skipn (S k) (split_on sep code).
Proof.
  intros H. rewrite (update_nth_split _ _ new _ H).
  rewrite split_on_join by (destruct (firstn k (split_on sep code)); discriminate).
  rewrite flat_map_app. simpl.
  pose proof (split_on_parts_free sep code) as Hfree.
  rewrite !flat_map_split_free; [reflexivity| |].
  - rewrite <- (firstn_skipn (S k)) in Hfree.
    apply Forall_app in Hfree. tauto.
  - rewrite <- (firstn_skipn k) in Hfree.
    apply Forall_app in Hfree. tauto.
Qed.

(** ** Subscripts *)

Lemma norm_index_nat {A} (l : list A) (k : nat) :
  k < length l -> norm_index l (Z.of_nat k) = Some k.
Proof.
  intros H. unfold norm_index.
  replace (0 <=? Z.of_nat k)%Z with true by (symmetry; apply Z.leb_le; lia).
  replace (Z.of_nat k <? Z.of_nat (length l))%Z with true
    by (symmetry; apply Z.ltb_lt; lia).
  simpl. now rewrite Nat2Z.id.
Qed.

Lemma list_get_nat {A} (l : list A) (k : nat) (x : A) :
  nth_error l k = Some x -> list_get l (Z.of_nat k) = Some x.
Proof.
  intros H. unfold list_get.
  rewrite norm_index_nat; [exact H|].
  apply nth_error_Some. congruence.
Qed.

Lemma list_set_nat {A} (l : list A) (k : nat) (x y : A) :
  nth_error l k = Some y ->
  list_set l (Z.of_nat k) x = Some (update_nth l k x).
Proof.
  intros H. unfold list_set.
  rewrite norm_index_nat; [reflexivity|].
  apply nth_error_Some. congruence.
Qed.

(** ** [replace] *)

Lemma replace_go_skip (old new : str) (k : nat) (s : str) :
  replace_go old new k s = replace_go old new 0 (skipn k s).
Proof.
  revert k. induction s as [|c s IH]; intros [|k]; simpl; try reflexivity.
  rewrite IH. now destruct k.
Qed.

Lemma replace_go_hit (old new s : str) :
  old <> [] -> startswith old s = true ->
  replace_go old new 0 s
  = new ++ replace_go old new 0 (skipn (length old) s).
Proof.
  intros Hne H. destruct s as [|c s].
  - destruct old; [contradiction|discriminate].
  - simpl replace_go. rewrite H, replace_go_skip.
    destruct old as [|a old]; [contradiction|].
    simpl. now rewrite Nat.sub_0_r.
Qed.

Lemma replace_go_same (old s : str) :
  old <> [] -> replace_go old old 0 s = s.
Proof.
  intros Hne. remember (length s) as n eqn:Hn.
  revert s Hn. induction n as [n IH] using lt_wf_ind. intros s Hn.
  destruct s as [|c s]; [reflexivity|].
  destruct (startswith old (c :: s)) eqn:E.
  - rewrite replace_go_hit by assumption.
    pose proof (startswith_split _ _ E) as Hs.
    rewrite (IH (length (skipn (length old) (c :: s)))); [now rewrite <- Hs| |reflexivity].
    subst n. rewrite length_skipn. destruct old; [contradiction|simpl; lia].
  - simpl. rewrite E. f_equal.
    apply (IH (length s)); [subst n; simpl; lia|reflexivity].
Qed.

Lemma replace_same (old s : str) : old <> [] -> replace old old s = s.
Proof.
  intros Hne. unfold replace. destruct old; [contradiction|].
  now apply replace_go_same.
Qed.

Lemma replace_go_none (old new s : str) :
  index_of old s = None -> replace_go old new 0 s = s.
Proof.
  induction s as [|c s IH]; intros H; [reflexivity|].
  simpl in *. destruct (startswith old (c :: s)); [discriminate|].
  f_equal. apply IH. now destruct (index_of old s).
Qed.

Lemma replace_go_first (old new s : str) (p : nat) :
  old <> [] -> index_of old s = Some p ->
  replace_go old new 0 s
  = firstn p s ++ new ++ replace_go old new 0 (skipn (p + length old) s).
Proof.
  intros Hne. revert p. induction s as [|c s IH]; intros p H.
  - simpl in H. destruct (startswith old []) eqn:E; [|discriminate].
    destruct old; [contradiction|discriminate].
  - simpl in H. destruct (startswith old (c :: s)) eqn:E.
    + injection H as <-. now rewrite replace_go_hit.
    + destruct (index_of old s) as [q|]; [|discriminate].
      injection H as <-. simpl. rewrite E. f_equal. now apply IH.
Qed.

(** One occurrence only: [replace] rewrites exactly its span. *)
Lemma replace_single (old new s : str) (p : nat) :
  old <> [] -> index_of old s = Some p ->
  index_of old (skipn (p + length old) s) = None ->
  replace old new s = firstn p s ++ new ++ skipn (p + length old) s.
Proof.
  intros Hne Hp Hrest. unfold replace.
  destruct old as [|a old]; [contradiction|].
  rewrite (@replace_go_first _ new _ _ Hne Hp).
  now rewrite (@replace_go_none _ new _ Hrest).
Qed.

(** ** Stripping *)

Lemma lstrip_suffix (s : str) :
  s = firstn (length s - length (lstrip s)) s ++ lstrip s.
Proof.
  induction s as [|c s IH]; [reflexivity|].
  simpl lstrip. destruct (isspace c).
  - assert (Hle : length (lstrip s) <= length s).
    { clear. induction s as [|c s IH]; simpl; [lia|].
      destruct (isspace c); simpl; lia. }
    replace (length (c :: s) - length (lstrip s))
      with (S (length s - length (lstrip s)))
      by (change (length (c :: s)) with (S (length s)); lia).
    simpl. f_equal. exact IH.
  - now rewrite Nat.sub_diag.
Qed.

Lemma lstrip_length (s : str) : length (lstrip s) <= length s.
Proof.
  induction s as [|c s IH]; simpl; [lia|].
  destruct (isspace c); simpl; lia.
Qed.

Lemma lstrip_snoc (s : str) (c : char) :
  isspace c = false -> lstrip (s ++ [c]) = lstrip s ++ [c].
Proof.
  intros Hc. induction s as [|x s IH]; simpl.
  - now rewrite Hc.
  - destruct (isspace x); [exact IH|reflexivity].
Qed.

Lemma rstrip_fixed (s : str) :
  rstrip s = s -> s = [] \/ exists t c, s = t ++ [c] /\ isspace c = false.
Proof.
  unfold rstrip. intros H.
  destruct (rev s) as [|c t] eqn:E.
  - left. apply (f_equal (@rev _)) in E. now rewrite rev_involutive in E.
  - right. exists (rev t), c. split.
    + apply (f_equal (@rev _)) in E. now rewrite rev_involutive in E.
    + destruct (isspace c) eqn:Hc; [|reflexivity]. exfalso.
      simpl in H. rewrite Hc in H.
      apply (f_equal (@length _)) in H. rewrite length_rev in H.
      pose proof (lstrip_length t).
      apply (f_equal (@length _)) in E. rewrite length_rev in E.
      simpl in E. lia.
Qed.

Lemma rstrip_snoc (s : str) (c : char) :
  isspace c = false -> rstrip (s ++ [c]) = s ++ [c].
Proof.
  intros Hc. unfold rstrip. rewrite rev_app_distr. simpl.
  rewrite Hc. simpl. now rewrite rev_involutive.
Qed.

(** A line without trailing white space: stripping it only removes the
    leading white space. *)
Lemma strip_no_trailing (s : str) : rstrip s = s -> strip s = lstrip s.
Proof.
  intros H. unfold strip.
  destruct (rstrip_fixed _ H) as [->|(t & c & -> & Hc)]; [reflexivity|].
  rewrite lstrip_snoc by assumption. now apply rstrip_snoc.
Qed.

Lemma lstrip_app (x y : str) :
  lstrip x <> [] -> lstrip (x ++ y) = lstrip x ++ y.
Proof.
  induction x as [|c x IH]; simpl; intros H; [contradiction|].
  destruct (isspace c); [now apply IH|reflexivity].
Qed.

Lemma rstrip_prefix (s : str) : exists ws, s = rstrip s ++ ws.
Proof.
  unfold rstrip. exists (rev (firstn (length (rev s) - length (lstrip (rev s)))
                                     (rev s))).
  rewrite <- rev_app_distr, <- lstrip_suffix. now rewrite rev_involutive.
Qed.

Lemma rstrip_app (a b : str) :
  rstrip b <> [] -> rstrip (a ++ b) = a ++ rstrip b.
Proof.
  unfold rstrip. intros H. rewrite rev_app_distr, lstrip_app.
  - now rewrite rev_app_distr, rev_involutive.
  - intros E. apply H. now rewrite E.
Qed.

(** What [strip] keeps is a part of the string. *)
Lemma strip_part (s : str) : exists a b, s = a ++ strip s ++ b.
Proof.
  unfold strip. destruct (rstrip_prefix (lstrip s)) as [b Hb].
  exists (firstn (length s - length (lstrip s)) s), b.
  rewrite <- Hb. apply lstrip_suffix.
Qed.

Lemma index_of_inside (sub a b : str) :
  exists p, index_of sub (a ++ sub ++ b) = Some p.
Proof.
  induction a as [|c a [p IH]]; simpl.
  - exists 0. assert (E : startswith sub (sub ++ b) = true)
      by apply startswith_app.
    destruct (sub ++ b); simpl; now rewrite E.
  - destruct (startswith sub (c :: a ++ sub ++ b)); [eauto|].
    rewrite IH. simpl. eauto.
Qed.

Lemma index_of_first (sub a b : str) (p : nat) :
  index_of sub (a ++ sub ++ b) = Some p -> p <= length a.
Proof.
  revert p. induction a as [|c a IH]; intros p H.
  - assert (E : startswith sub (sub ++ b) = true) by apply startswith_app.
    simpl in H. destruct (sub ++ b); simpl in H; rewrite E in H;
      injection H as <-; simpl; lia.
  - simpl in H. destruct (startswith sub (c :: a ++ sub ++ b)).
    + injection H as <-. lia.
    + destruct (index_of sub (a ++ sub ++ b)) as [q|]; [|discriminate H].
      injection H as <-. specialize (IH q eq_refl). simpl. lia.
Qed.

Lemma strip_length (s : str) : length (strip s) <= length s.
Proof.
  destruct (strip_part s) as (a & b & Hs).
  rewrite Hs at 2. rewrite !length_app. lia.
Qed.

Lemma contains_part (sub a s b : str) :
  contains sub s = true -> contains sub (a ++ s ++ b) = true.
Proof.
  intros H. apply contains_index_of in H. destruct H as [p Hp].
  rewrite (index_of_split _ _ _ Hp).
  rewrite <- !app_assoc, (app_assoc a).
  destruct (index_of_inside sub (a ++ firstn p s)
                            (skipn (p + length sub) s ++ b)) as [q Hq].
  unfold contains. now rewrite Hq.
Qed.

Lemma contains_strip (sub s : str) :
  contains sub (strip s) = true -> contains sub s = true.
Proof.
  intros H. destruct (strip_part s) as (a & b & Hs).
  rewrite Hs. now apply contains_part.
Qed.

Lemma slice_to_nat (s : str) (k : nat) :
  k <= length s -> slice_to s (Z.of_nat k) = firstn k s.
Proof.
  intros H. unfold slice_to, slice_bound, len.
  replace (Z.of_nat k <? 0)%Z with false by (symmetry; apply Z.ltb_ge; lia).
  rewrite Z.min_l by lia. now rewrite Nat2Z.id.
Qed.

(** ** Decimal numerals *)

Lemma utf8_ascii (l : list N) :
  Forall (fun b => (b < 128)%N) l -> utf8 l = l.
Proof.
  induction 1 as [|b l Hb Hl IH]; [reflexivity|].
  simpl. apply N.ltb_lt in Hb. now rewrite Hb, IH.
Qed.

Lemma str_of_nat_inj (m n : nat) : str_of_nat m = str_of_nat n -> m = n.
Proof.
  unfold str_of_nat, py. intros H.
  assert (Hd : forall d, Forall (fun b => (b < 128)%N)
             (map N_of_ascii (list_ascii_of_string (NilEmpty.string_of_uint d)))).
  { induction d; simpl; constructor; try assumption; reflexivity. }
  rewrite !utf8_ascii in H by apply Hd.
  assert (Hinj : forall a b : string,
             map N_of_ascii (list_ascii_of_string a)
             = map N_of_ascii (list_ascii_of_string b) -> a = b).
  { induction a as [|x a IHa]; intros [|y b] Hab; simpl in *;
      try discriminate; [reflexivity|].
    injection Hab as Hxy Hab. f_equal; [|now apply IHa].
    rewrite <- (ascii_N_embedding x), <- (ascii_N_embedding y). now f_equal. }
  apply Hinj in H.
  apply DecimalNat.Unsigned.to_uint_inj.
  apply (f_equal NilEmpty.uint_of_string) in H.
  rewrite !NilEmpty.usu in H. now injection H.
Qed.

End PyStrFacts.

(* ===================================================================== *)
(** * Facts about the clause map and the scan *)
(* ===================================================================== *)

Module ScanFacts.
Import PyStr PyStrFacts Agent ScanSpec.

(** ** The dict *)

Lemma dict_get_In (k : str) (d : dict) (c : EditableClause) :
  dict_get k d = Some c -> In (k, c) d.
Proof.
  induction d as [|[k' v] r IH]; simpl; [discriminate|].
  destruct (str_eqb k k') eqn:E.
  - apply str_eqb_eq in E. intros [= ->]. left. now subst.
  - intros H. right. now apply IH.
Qed.

Lemma dict_get_keys (k : str) (d : dict) :
  dict_get k d = None <-> ~ In k (dict_keys d).
Proof.
  induction d as [|[k' v] r IH]; simpl; [tauto|].
  destruct (str_eqb k k') eqn:E.
  - apply str_eqb_eq in E. subst. split; [discriminate|]. intros H.
    exfalso. apply H. now left.
  - apply str_eqb_neq in E. rewrite IH. split.
    + intros H [Heq|Hin]; [now apply E|now apply H].
    + intros H Hin. apply H. now right.
Qed.

Lemma In_dict_get (k : str) (d : dict) (c : EditableClause) :
  NoDup (dict_keys d) -> In (k, c) d -> dict_get k d = Some c.
Proof.
  induction d as [|[k' v] r IH]; simpl; intros Hnd Hin; [contradiction|].
  inversion Hnd as [|? ? Hnotin Hnd']; subst.
  destruct Hin as [[= -> ->]|Hin].
  - now rewrite str_eqb_refl.
  - destruct (str_eqb k k') eqn:E; [|now apply IH].
    apply str_eqb_eq in E. subst. exfalso. apply Hnotin.
    change k' with (fst (k', c)). now apply in_map.
Qed.

Lemma dict_set_In (k k' : str) (v c : EditableClause) (d : dict) :
  In (k, c) (dict_set k' v d) -> (k = k' /\ c = v) \/ In (k, c) d.
Proof.
  induction d as [|[k0 v0] r IH]; simpl.
  - intros [[= -> ->]|[]]. now left.
  - destruct (str_eqb k' k0) eqn:E; simpl.
    + apply str_eqb_eq in E. subst.
      intros [[= -> ->]|Hin]; [now left|right; now right].
    + intros [Heq|Hin]; [right; now left|].
      destruct (IH Hin) as [?|?]; [now left|right; now right].
Qed.

Lemma dict_set_keys (k : str) (v : EditableClause) (d : dict) :
  dict_keys (dict_set k v d)
  = if in_dec (list_eq_dec N.eq_dec) k (dict_keys d)
    then dict_keys d else dict_keys d ++ [k].
Proof.
  induction d as [|[k0 v0] r IH]; simpl; [reflexivity|].
  destruct (str_eqb k k0) eqn:E; simpl.
  - apply str_eqb_eq in E. subst.
    destruct (list_eq_dec N.eq_dec k0 k0); [reflexivity|contradiction].
  - apply str_eqb_neq in E. rewrite IH.
    destruct (list_eq_dec N.eq_dec k0 k); [now subst|].
    now destruct (in_dec (list_eq_dec N.eq_dec) k (dict_keys r)).
Qed.

Lemma dict_set_nodup (k : str) (v : EditableClause) (d : dict) :
  NoDup (dict_keys d) -> NoDup (dict_keys (dict_set k v d)).
Proof.
  intros H. rewrite dict_set_keys.
  destruct (in_dec (list_eq_dec N.eq_dec) k (dict_keys d)) as [Hin|Hnot];
    [exact H|].
  apply NoDup_app; [exact H|repeat constructor; intros []|].
  intros x Hx [<-|[]]. contradiction.
Qed.

Lemma main_entries_set_other (k : str) (v : EditableClause) (d : dict) :
  is_main_proof_id k = false ->
  main_entries (dict_set k v d) = main_entries d.
Proof.
  intros Hk. unfold main_entries.
  induction d as [|[k0 v0] r IH]; simpl; [now rewrite Hk|].
  destruct (str_eqb k k0) eqn:E; simpl.
  - apply str_eqb_eq in E. subst. now rewrite Hk.
  - now rewrite IH.
Qed.

Lemma main_entries_set_fresh (k : str) (v : EditableClause) (d : dict) :
  is_main_proof_id k = true -> ~ In k (dict_keys d) ->
  main_entries (dict_set k v d) = main_entries d ++ [(k, v)].
Proof.
  intros Hk. unfold main_entries.
  induction d as [|[k0 v0] r IH]; simpl; intros Hnot; [now rewrite Hk|].
  destruct (str_eqb k k0) eqn:E; simpl.
  - apply str_eqb_eq in E. subst. exfalso. apply Hnot. now left.
  - rewrite IH by tauto. now destruct (is_main_proof_id k0).
Qed.

Lemma main_keys_entries (d : dict) :
  filter is_main_proof_id (dict_keys d) = dict_keys (main_entries d).
Proof.
  unfold dict_keys, main_entries.
  induction d as [|[k v] r IH]; simpl; [reflexivity|].
  destruct (is_main_proof_id k); simpl; now rewrite IH.
Qed.

(** ** The loop body *)

Section Scan.

Variable unicode_alnum : char -> bool.

Local Abbreviation scan_line := (scan_line unicode_alnum).
Local Abbreviation scan_from := (scan_from unicode_alnum).
Local Abbreviation clause_on_line := (clause_on_line unicode_alnum).
Local Abbreviation scan_inv := (scan_inv unicode_alnum).

(** Every pass of the loop body leaves the map and the counter, or records
    one clause of the line and counts it. *)
Lemma scan_line_cases (i : nat) (ln : str) (sc : ScanState) :
  (sc_clauses (scan_line i ln sc) = sc_clauses sc /\
   sc_clause_id (scan_line i ln sc) = sc_clause_id sc) \/
  (exists c, clause_on_line i ln (sc_clause_id sc) c /\
     sc_clauses (scan_line i ln sc)
     = dict_set (clause_id c) c (sc_clauses sc) /\
     sc_clause_id (scan_line i ln sc) = S (sc_clause_id sc)).
Proof.
  unfold scan_line.
  destruct (negb (nonempty (strip ln)) || startswith (py "--") (strip ln));
    [now left|].
  destruct (startswith (py "theorem") (strip ln)).
  { destruct (index_of (py ":= by") (strip ln)) as [p|] eqn:Ep; [|now left].
    destruct (nonempty (strip (skipn (p + 5) (strip ln)))); [|now left].
    right. eexists. split; [|split; reflexivity].
    unfold find. rewrite Ep. exact (@on_main_proof unicode_alnum i ln _ p Ep). }
  destruct (sc_started sc); [|now left].
  destruct (startswith (py "have ") (strip ln)).
  { destruct (match_have unicode_alnum (strip ln)) as [m|] eqn:Em; [|now left].
    right. eexists. split; [|split; reflexivity].
    exact (@on_have unicode_alnum i ln _ m Em). }
  destruct (contains (py "sorry") (strip ln)) eqn:Es.
  { right. eexists. split; [|split; reflexivity].
    exact (@on_sorry unicode_alnum i ln _ Es). }
  destruct (startswith (py "by ") (strip ln)) eqn:Eb.
  { right. eexists. split; [|split; reflexivity].
    exact (@on_tactic_block unicode_alnum i ln _ Eb). }
  destruct (existsb _ tactic_prefixes).
  { right. eexists. split; [|split; reflexivity].
    exact (@on_tactic unicode_alnum i ln _). }
  destruct (nonempty (strip ln) && _); [|now left].
  right. eexists. split; [|split; reflexivity].
  exact (@on_proof_line unicode_alnum i ln _).
Qed.

(** The keys of the clauses, by category. *)
Lemma clause_key_main (i : nat) (ln : str) (n : nat) (c : EditableClause) :
  clause_on_line i ln n c ->
  is_main_proof_id (clause_id c) = true ->
  clause_id c = py "main_proof_" ++ str_of_nat n \/
  clause_id c = py "sorry_" ++ str_of_nat n.
Proof.
  intros [p Hp|m Hm|Hs|Hb| |]; simpl; intros H;
    try (now left); try (now right); discriminate.
Qed.

(** The prefixes without the underscore select the same keys. *)
Lemma clause_key_prefix (i : nat) (ln : str) (n : nat) (c : EditableClause) :
  clause_on_line i ln n c ->
  startswith (py "main_proof") (clause_id c)
  || startswith (py "sorry") (clause_id c)
  = is_main_proof_id (clause_id c).
Proof. intros [p Hp|m Hm|Hs|Hb| |]; reflexivity. Qed.

Lemma clause_line (i : nat) (ln : str) (n : nat) (c : EditableClause) :
  clause_on_line i ln n c -> line (start_pos c) = Z.of_nat i.
Proof. intros [p Hp|m Hm|Hs|Hb| |]; reflexivity. Qed.

(** The span of a clause lies within its line, for every category but
    ['have']. *)
Lemma clause_span_within_line (i : nat) (ln : str) (n : nat)
      (c : EditableClause) :
  clause_on_line i ln n c ->
  clause_type c <> py "have" ->
  (0 <= column (start_pos c) <= column (end_pos c))%Z /\
  (column (end_pos c) <= len ln)%Z.
Proof.
  intros [p Hp|m Hm|Hs|Hb| |] Hty; unfold whole_line;
    cbn [clause_type start_pos end_pos column fst snd] in *; unfold len.
  - apply index_of_bound in Hp. change (length (py ":= by")) with 5 in Hp.
    pose proof (strip_length ln). lia.
  - now contradiction Hty.
  - apply contains_strip, contains_index_of in Hs. destruct Hs as [q Hq].
    rewrite (find_index_of _ _ _ Hq).
    apply index_of_bound in Hq. change (length (py "sorry")) with 5 in Hq.
    lia.
  - destruct (strip_part ln) as (a & b & Hln).
    apply startswith_split in Hb. change (length (py "by ")) with 3 in Hb.
    assert (Hlen : length a + 3 <= length ln).
    { rewrite Hln, Hb at 1. rewrite !length_app.
      change (length (py "by ")) with 3. lia. }
    assert (Hocc : ln = a ++ py "by"
                        ++ (SPACE :: skipn 3 (strip ln) ++ b)).
    { rewrite Hln, Hb at 1. now rewrite <- !app_assoc. }
    destruct (index_of (py "by") ln) as [q|] eqn:Hq.
    + rewrite (find_index_of _ _ _ Hq).
      rewrite Hocc in Hq. apply index_of_first in Hq. lia.
    + exfalso. rewrite Hocc in Hq.
      destruct (index_of_inside (py "by") a
                  (SPACE :: skipn 3 (strip ln) ++ b)) as [q Hq'].
      congruence.
  - lia.
  - lia.
Qed.

Lemma strongly_sorted_snoc (l : list Z) (x : Z) :
  StronglySorted Z.lt l -> Forall (fun y => (y < x)%Z) l ->
  StronglySorted Z.lt (l ++ [x]).
Proof.
  induction 1 as [|a l Hl IH Ha]; intros Hx; simpl.
  - repeat constructor.
  - inversion Hx as [|? ? Hax Hlx]; subst. constructor; [now apply IH|].
    apply Forall_app. split; [exact Ha|now repeat constructor].
Qed.

(** A key with the counter in it is new: the keys in the map carry smaller
    counters. *)
Lemma main_key_fresh (lines : list str) (idx : nat) (sc : ScanState)
      (ln : str) (c : EditableClause) :
  scan_inv lines idx sc ->
  clause_on_line idx ln (sc_clause_id sc) c ->
  is_main_proof_id (clause_id c) = true ->
  ~ In (clause_id c) (dict_keys (sc_clauses sc)).
Proof.
  intros Hinv Hc Hmain Hin.
  apply in_map_iff in Hin. destruct Hin as ([k c'] & Hk & Hin).
  simpl in Hk. subst k.
  destruct (inv_entries Hinv _ _ Hin) as (Hid & i & l & m & _ & _ & Hm & Hc').
  assert (Hmain' : is_main_proof_id (clause_id c') = true)
    by (now rewrite <- Hid).
  destruct (clause_key_main _ _ _ _ Hc' Hmain') as [E'|E'];
    destruct (clause_key_main _ _ _ _ Hc Hmain) as [E|E];
    rewrite Hid, E' in E; try discriminate;
    apply app_inv_head, str_of_nat_inj in E; lia.
Qed.

Lemma main_lines_bound (lines : list str) (idx : nat) (sc : ScanState) :
  scan_inv lines idx sc ->
  Forall (fun y => (y < Z.of_nat idx)%Z) (main_lines (sc_clauses sc)).
Proof.
  intros Hinv. unfold main_lines. apply Forall_forall. intros y Hy.
  apply in_map_iff in Hy. destruct Hy as ([k c] & <- & Hin).
  apply filter_In in Hin. destruct Hin as [Hin _].
  destruct (inv_entries Hinv _ _ Hin) as (_ & i & l & m & Hi & _ & _ & Hc).
  simpl. rewrite (clause_line _ _ _ _ Hc). lia.
Qed.

Lemma scan_line_inv (lines : list str) (idx : nat) (ln : str)
      (sc : ScanState) :
  scan_inv lines idx sc -> nth_error lines idx = Some ln ->
  scan_inv lines (S idx) (scan_line idx ln sc).
Proof.
  intros Hinv Hln.
  destruct (scan_line_cases idx ln sc) as [[Hd Hn]|(c & Hc & Hd & Hn)].
  - constructor; rewrite ?Hd, ?Hn.
    + exact (inv_nodup Hinv).
    + intros k c Hin.
      destruct (inv_entries Hinv _ _ Hin) as (Hid & i & l & m & ? & ? & ? & ?).
      split; [exact Hid|]. exists i, l, m. repeat split; auto.
    + exact (inv_sorted Hinv).
  - constructor; rewrite ?Hd, ?Hn.
    + apply dict_set_nodup, (inv_nodup Hinv).
    + intros k c' Hin. apply dict_set_In in Hin.
      destruct Hin as [[-> ->]|Hin].
      * split; [reflexivity|]. exists idx, ln, (sc_clause_id sc).
        repeat split; auto.
      * destruct (inv_entries Hinv _ _ Hin)
          as (Hid & i & l & m & ? & ? & ? & ?).
        split; [exact Hid|]. exists i, l, m. repeat split; auto.
    + unfold main_lines.
      destruct (is_main_proof_id (clause_id c)) eqn:Hmain.
      * rewrite main_entries_set_fresh
          by (auto; eapply main_key_fresh; eauto).
        rewrite map_app. simpl. apply strongly_sorted_snoc.
        -- exact (inv_sorted Hinv).
        -- rewrite (clause_line _ _ _ _ Hc). exact (main_lines_bound _ _ _ Hinv).
      * rewrite main_entries_set_other by assumption.
        exact (inv_sorted Hinv).
Qed.

Lemma scan_from_inv (lines rest : list str) (i : nat) (sc : ScanState) :
  (forall j l, nth_error rest j = Some l -> nth_error lines (i + j) = Some l) ->
  scan_inv lines i sc ->
  scan_inv lines (i + length rest) (scan_from i rest sc).
Proof.
  revert i sc. induction rest as [|ln rest IH]; intros i sc Hsub Hinv; simpl.
  - now rewrite Nat.add_0_r.
  - replace (i + S (length rest)) with (S i + length rest) by lia.
    apply IH.
    + intros j l Hj. replace (S i + j) with (i + S j) by lia.
      now apply Hsub.
    + apply scan_line_inv; [exact Hinv|].
      rewrite <- (Nat.add_0_r i). now apply Hsub.
Qed.

Lemma scan_start_inv (lines : list str) : scan_inv lines 0 scan_start.
Proof.
  constructor; simpl.
  - constructor.
  - intros k c [].
  - constructor.
Qed.

(** The scan of a whole document. *)
Lemma identify_inv (code : str) :
  scan_inv (split_on NL code) (length (split_on NL code))
           (scan_from 0 (split_on NL code) scan_start).
Proof.
  apply (scan_from_inv (split_on NL code) (split_on NL code) 0);
    [auto|apply scan_start_inv].
Qed.

(** Every clause of the map was recorded for a line of the document. *)
Lemma identify_entry (code cid : str) (c : EditableClause) :
  dict_get cid (identify_editable_clauses unicode_alnum code) = Some c ->
  cid = clause_id c /\
  exists i ln m, nth_error (split_on NL code) i = Some ln /\
                 clause_on_line i ln m c.
Proof.
  intros H. apply dict_get_In in H.
  destruct (inv_entries (identify_inv code) _ _ H)
    as (Hid & i & ln & m & _ & Hln & _ & Hc).
  split; [exact Hid|]. now exists i, ln, m.
Qed.

End Scan.

End ScanFacts.

(* ===================================================================== *)
(** * Facts about the session *)
(* ===================================================================== *)

Module SessionFacts.
Import PyStr PyStrFacts Agent ScanSpec EditSpec ScanFacts.

Section Session.

Variable Prover : Type.
Variable run_command : Prover -> str -> Prover * CommandResult.
Variable unicode_alnum : char -> bool.
Variable new_prover : Prover.
Variable ident : Z.
Variable fresh_session_id : str.
Variable instance_id : str.

Local Abbreviation compile := (compile_and_analyze run_command unicode_alnum).
Local Abbreviation load :=
  (load_theorem run_command unicode_alnum ident instance_id).
Local Abbreviation edit :=
  (edit_clause run_command unicode_alnum ident instance_id).
Local Abbreviation add_structure :=
  (add_proof_structure run_command unicode_alnum ident instance_id).
Local Abbreviation panel := (get_interactive_panel ident instance_id).
Local Abbreviation identify := (identify_editable_clauses unicode_alnum).
Local Abbreviation unique := (make_thread_unique_code unicode_alnum).
Local Abbreviation reachable :=
  (reachable run_command unicode_alnum new_prover ident fresh_session_id
             instance_id).
Local Abbreviation derived := (derived (Prover := Prover) unicode_alnum).
Local Abbreviation edit_outcome :=
  (edit_outcome run_command unicode_alnum ident instance_id).

(** ** One compilation *)

Lemma compile_code st u : current_code (fst (compile st u)) = current_code st.
Proof.
  unfold compile_and_analyze. now destruct (run_command (prover st) u).
Qed.

Lemma compile_clauses st u :
  editable_clauses (fst (compile st u)) = identify (current_code st).
Proof.
  unfold compile_and_analyze. now destruct (run_command (prover st) u).
Qed.

Lemma compile_counter st u :
  compilation_id (fst (compile st u)) = S (compilation_id st).
Proof.
  unfold compile_and_analyze. now destruct (run_command (prover st) u).
Qed.

Lemma compile_prover st u :
  prover (fst (compile st u)) = fst (run_command (prover st) u).
Proof.
  unfold compile_and_analyze. now destruct (run_command (prover st) u).
Qed.

Lemma compile_session st u :
  session_id (fst (compile st u)) = session_id st /\
  thread_id (fst (compile st u)) = thread_id st.
Proof.
  unfold compile_and_analyze. now destruct (run_command (prover st) u).
Qed.

Lemma compile_messages st u :
  current_messages (fst (compile st u))
  = parse_messages (snd (run_command (prover st) u)) /\
  messages (snd (compile st u)) = current_messages (fst (compile st u)).
Proof.
  unfold compile_and_analyze. now destruct (run_command (prover st) u).
Qed.

Lemma compile_goals st u :
  current_goals (fst (compile st u))
  = parse_goals (current_code st) (snd (run_command (prover st) u)) /\
  goals (snd (compile st u)) = current_goals (fst (compile st u)).
Proof.
  unfold compile_and_analyze. now destruct (run_command (prover st) u).
Qed.

Lemma compile_success st u :
  success (snd (compile st u))
  = negb (has_severity (py "error") (messages (snd (compile st u)))).
Proof.
  unfold compile_and_analyze. now destruct (run_command (prover st) u).
Qed.

Lemma compile_derived st u : derived (fst (compile st u)).
Proof.
  unfold Agent.derived. now rewrite compile_clauses, compile_code.
Qed.

(** ** Loading *)

Lemma load_compile st code :
  load st code
  = (fst (compile (set_current_code st code)
                  (unique code ident (session_id st))),
     with_thread_info
       (snd (compile (set_current_code st code)
                     (unique code ident (session_id st))))
       (thread_info_of ident instance_id st)).
Proof.
  unfold load_theorem. simpl.
  now destruct (compile (set_current_code st code)
                        (unique code ident (session_id st))).
Qed.

Lemma load_code st code : current_code (fst (load st code)) = code.
Proof. rewrite load_compile. simpl. now rewrite compile_code. Qed.

Lemma load_clauses st code :
  editable_clauses (fst (load st code)) = identify code.
Proof. rewrite load_compile. simpl. now rewrite compile_clauses. Qed.

Lemma load_derived st code : derived (fst (load st code)).
Proof. rewrite load_compile. simpl. apply compile_derived. Qed.

(** ** Editing *)

Lemma edit_applied st cid new c i ln :
  dict_get cid (editable_clauses st) = Some c ->
  line (start_pos c) = Z.of_nat i ->
  nth_error (split_on NL (current_code st)) i = Some ln ->
  edit st cid new = edit_outcome st cid new c i ln.
Proof.
  intros Hc Hline Hln. unfold edit_clause, edit_outcome.
  rewrite Hc, Hline, (list_get_nat _ _ _ Hln), (list_set_nat _ _ _ _ Hln).
  cbv zeta.
  match goal with |- context [compile ?a ?b] =>
    pose proof (compile_code a b) as Hcode;
    pose proof (compile_session a b) as [Hsid _];
    destruct (compile a b) as [st2 cr] end.
  simpl in *. unfold thread_info_of. now rewrite Hcode, Hsid.
Qed.

(** In a state whose clause map is the scan of its document, every clause
    of the map sits on a line of the document. *)
Lemma derived_clause_line st cid c :
  derived st -> dict_get cid (editable_clauses st) = Some c ->
  cid = clause_id c /\
  exists i ln m,
    line (start_pos c) = Z.of_nat i /\
    nth_error (split_on NL (current_code st)) i = Some ln /\
    clause_on_line unicode_alnum i ln m c.
Proof.
  intros Hd Hc. rewrite Hd in Hc.
  destruct (identify_entry _ _ _ _ Hc) as (Hid & i & ln & m & Hln & Hcl).
  split; [exact Hid|]. exists i, ln, m.
  split; [exact (clause_line _ _ _ _ _ Hcl)|]. now split.
Qed.

(** In such a state an edit of a key of the map is applied, and no edit
    raises. *)
Lemma edit_known_derived st cid new c :
  derived st -> dict_get cid (editable_clauses st) = Some c ->
  exists i ln m,
    line (start_pos c) = Z.of_nat i /\
    nth_error (split_on NL (current_code st)) i = Some ln /\
    clause_on_line unicode_alnum i ln m c /\
    edit st cid new = edit_outcome st cid new c i ln.
Proof.
  intros Hd Hc.
  destruct (derived_clause_line st cid c Hd Hc) as (_ & i & ln & m & Hl & Hln & Hcl).
  exists i, ln, m. repeat split; try assumption.
  now apply edit_applied.
Qed.

Lemma edit_returns st cid new :
  derived st -> exists st' res, edit st cid new = (st', Returned res).
Proof.
  intros Hd. destruct (dict_get cid (editable_clauses st)) as [c|] eqn:Hc.
  - destruct (edit_known_derived st cid new c Hd Hc)
      as (i & ln & m & _ & _ & _ & ->).
    unfold EditSpec.edit_outcome. eauto.
  - unfold edit_clause. rewrite Hc. eauto.
Qed.

(** ** The messages of an answer *)

Lemma tagged_message_severity sev r m :
  In m (tagged_message sev r) -> severity m = sev.
Proof.
  unfold tagged_message. destruct (contains _ r); [|intros []].
  destruct (search_tagged _ r); [|intros []].
  now intros [<-|[]].
Qed.

Lemma tagged_message_found sev r :
  contains (py "[" ++ sev ++ py "]") r = true ->
  exists text, tagged_message sev r = [mk_message sev text].
Proof.
  intros H. unfold tagged_message. rewrite H.
  unfold search_tagged. apply contains_index_of in H. destruct H as [p ->].
  eauto.
Qed.

Lemma tagged_message_absent sev r :
  contains (py "[" ++ sev ++ py "]") r = false -> tagged_message sev r = [].
Proof. intros H. unfold tagged_message. now rewrite H. Qed.

(** An answer yields a message of severity ['error'] exactly when its text
    contains the tag ["[error]"]. *)
Lemma parse_messages_error (res : CommandResult) :
  (exists m, In m (parse_messages res) /\ severity m = py "error") <->
  (exists txt, response res = Some txt /\ contains (py "[error]") txt = true).
Proof.
  unfold parse_messages. destruct (response res) as [r|].
  2:{ split; [intros (m & [<-|[]] & H); discriminate H|].
      intros (txt & H & _). discriminate H. }
  assert (Hin : forall m,
    In m (tagged_message (py "error") r ++ tagged_message (py "warning") r
          ++ tagged_message (py "info") r) -> severity m = py "error" ->
    contains (py "[error]") r = true).
  { intros m Hm Hsev.
    destruct (contains (py "[error]") r) eqn:E; [reflexivity|].
    rewrite (tagged_message_absent (py "error") r E) in Hm. simpl in Hm.
    apply in_app_or in Hm.
    destruct Hm as [Hm|Hm]; apply tagged_message_severity in Hm;
      rewrite Hm in Hsev; discriminate Hsev. }
  split.
  - intros (m & Hm & Hsev). exists r. split; [reflexivity|].
    destruct (nonempty r).
    + destruct (_ && _).
      * apply in_app_or in Hm. destruct Hm as [Hm|[<-|[]]]; [|discriminate Hsev].
        now apply (Hin m).
      * destruct (_ ++ _) as [|m0 l] eqn:El.
        -- destruct Hm as [<-|[]]. discriminate Hsev.
        -- now apply (Hin m).
    + simpl in Hm. destruct Hm as [<-|[]]. discriminate Hsev.
  - intros (txt & [= <-] & Hc).
    destruct (tagged_message_found (py "error") r Hc) as [text Ht].
    assert (Hne : nonempty r = true) by (destruct r; [discriminate Hc|reflexivity]).
    rewrite Hne, Ht. simpl app.
    exists (mk_message (py "error") text). split; [|reflexivity].
    destruct (_ && _); now left.
Qed.

Lemma edit_derived st cid new : derived st -> derived (fst (edit st cid new)).
Proof.
  intros Hd. unfold edit_clause.
  destruct (dict_get cid (editable_clauses st)) as [c|]; [|exact Hd].
  destruct (list_get _ _) as [ln|]; [|exact Hd].
  destruct (list_set _ _ _) as [lines'|]; [|exact Hd].
  match goal with |- context [compile ?a ?b] =>
    pose proof (compile_derived a b) as Hcd;
    destruct (compile a b) as [st2 cr] end.
  exact Hcd.
Qed.

Lemma add_derived st ls : derived st -> derived (fst (add_structure st ls)).
Proof.
  intros Hd. unfold add_proof_structure.
  destruct (filter _ _); [exact Hd|now apply edit_derived].
Qed.

Lemma initial_derived :
  derived (initial_state new_prover ident fresh_session_id).
Proof. reflexivity. Qed.

Lemma reachable_derived st : reachable st -> derived st.
Proof.
  induction 1 as [|st code _ _|st cid new _ IH|st ls _ IH|st _ IH].
  - apply initial_derived.
  - apply load_derived.
  - now apply edit_derived.
  - now apply add_derived.
  - exact IH.
Qed.

End Session.

End SessionFacts.
(* ===================================================================== *)
(** * The rules of [edit_clause], line by line *)
(* ===================================================================== *)

Module EditFacts.
Import PyStr PyStrFacts Agent.

(** A line is its first [k] characters followed by [t] exactly when [t] is
    what follows them. *)
Lemma rebuilt_iff (ln t : str) (k : nat) :
  firstn k ln ++ t = ln <-> skipn k ln = t.
Proof.
  split; intros H.
  - rewrite <- (firstn_skipn k ln) in H at 2. now apply app_inv_head in H.
  - rewrite <- H. apply firstn_skipn.
Qed.

Lemma edited_line_main_proof c ln new q :
  clause_type c = py "main_proof" -> index_of (py ":= by") ln = Some q ->
  edited_line c ln new = firstn (q + 5) ln ++ py " " ++ new.
Proof.
  unfold edited_line. intros -> Hq.
  change (str_eqb (py "main_proof") (py "sorry")) with false.
  change (str_eqb (py "main_proof") (py "have")) with false.
  change (str_eqb (py "main_proof") (py "main_proof")) with true. cbv iota.
  rewrite (find_index_of _ _ _ Hq).
  replace (Z.of_nat q =? -1)%Z with false by (symmetry; apply Z.eqb_neq; lia).
  cbn [negb]. cbv iota.
  replace (Z.of_nat q + 5)%Z with (Z.of_nat (q + 5)) by lia.
  rewrite slice_to_nat; [reflexivity|].
  apply index_of_bound in Hq. change (length (py ":= by")) with 5 in Hq. lia.
Qed.

Lemma edited_line_tactic_block c ln new q :
  clause_type c = py "tactic_block" -> index_of (py "by") ln = Some q ->
  edited_line c ln new = firstn (q + 2) ln ++ py " " ++ new.
Proof.
  unfold edited_line. intros -> Hq.
  change (str_eqb (py "tactic_block") (py "sorry")) with false.
  change (str_eqb (py "tactic_block") (py "have")) with false.
  change (str_eqb (py "tactic_block") (py "main_proof")) with false.
  change (str_eqb (py "tactic_block") (py "tactic_block")) with true.
  cbv iota.
  rewrite (find_index_of _ _ _ Hq).
  replace (Z.of_nat q =? -1)%Z with false by (symmetry; apply Z.eqb_neq; lia).
  cbn [negb]. cbv iota.
  replace (Z.of_nat q + 2)%Z with (Z.of_nat (q + 2)) by lia.
  rewrite slice_to_nat; [reflexivity|].
  apply index_of_bound in Hq. change (length (py "by")) with 2 in Hq. lia.
Qed.

End EditFacts.


(* ===================================================================== *)
(** * The properties of the session *)
(* ===================================================================== *)

Module Claims.
Import PyStr PyStrFacts Agent ScanSpec EditSpec ScanFacts SessionFacts.
Import EditFacts.

Section Session.

Variable Prover : Type.
Variable run_command : Prover -> str -> Prover * CommandResult.
Variable unicode_alnum : char -> bool.
Variable new_prover : Prover.
Variable ident : Z.
Variable fresh_session_id : str.
Variable instance_id : str.

Local Abbreviation compile := (compile_and_analyze run_command unicode_alnum).
Local Abbreviation load :=
  (load_theorem run_command unicode_alnum ident instance_id).
Local Abbreviation edit :=
  (edit_clause run_command unicode_alnum ident instance_id).
Local Abbreviation add_structure :=
  (add_proof_structure run_command unicode_alnum ident instance_id).
Local Abbreviation panel := (get_interactive_panel ident instance_id).
Local Abbreviation identify := (identify_editable_clauses unicode_alnum).
Local Abbreviation unique := (make_thread_unique_code unicode_alnum).
Local Abbreviation reachable :=
  (reachable run_command unicode_alnum new_prover ident fresh_session_id
             instance_id).
Local Abbreviation derived := (derived (Prover := Prover) unicode_alnum).
Local Abbreviation edit_outcome :=
  (edit_outcome run_command unicode_alnum ident instance_id).
Local Abbreviation reverified := (reverified run_command unicode_alnum).

Lemma has_severity_spec (sev : str) (msgs : list LeanMessage) :
  has_severity sev msgs = true <-> exists m, In m msgs /\ severity m = sev.
Proof.
  unfold has_severity. rewrite existsb_exists.
  split; intros (m & Hin & H); exists m; (split; [exact Hin|]);
    now apply str_eqb_eq.
Qed.

Lemma success_spec (r : CompileResult) :
  success r = negb (has_severity (py "error") (messages r)) ->
  success r = true <->
  (forall m, In m (messages r) -> severity m <> py "error").
Proof.
  intros ->. rewrite negb_true_iff. split.
  - intros Hno m Hin Hsev.
    assert (H : has_severity (py "error") (messages r) = true)
      by (apply has_severity_spec; eauto).
    congruence.
  - intros Hall.
    destruct (has_severity (py "error") (messages r)) eqn:E; [|reflexivity].
    apply has_severity_spec in E. destruct E as (m & Hin & Hsev).
    now destruct (Hall m Hin).
Qed.

(** C1. The result of a compilation, whether [load_theorem] returns it or
    [edit_clause] embeds it, reports the messages now stored in the session
    and has [success] true exactly when none of them has the severity
    ['error']: messages of any other severity, in any number, do not make
    it false. This holds for every answer of the prover. *)
Theorem success_iff_no_error_message
        (st : AgentState Prover) (code cid new : str) :
  (let st' := fst (load st code) in
   let r := snd (load st code) in
   messages r = current_messages st' /\
   (success r = true <->
    forall m, In m (messages r) -> severity m <> py "error")) /\
  match edit st cid new with
  | (st', Returned (EditOk e)) =>
    let r := compilation_result e in
    messages r = current_messages st' /\
    (success r = true <->
     forall m, In m (messages r) -> severity m <> py "error")
  | _ => True
  end.
Proof.
  split.
  - rewrite load_compile. cbv zeta. simpl fst. simpl snd. split.
    + apply compile_messages.
    + apply success_spec. simpl. apply compile_success.
  - unfold edit_clause.
    destruct (dict_get cid (editable_clauses st)) as [c|]; [|exact I].
    destruct (list_get _ _) as [ln|]; [|exact I].
    destruct (list_set _ _ _) as [lines'|]; [|exact I].
    match goal with |- context [compile ?a ?b] =>
      pose proof (compile_messages _ run_command unicode_alnum a b) as [_ Hm];
      pose proof (compile_success _ run_command unicode_alnum a b) as Hs;
      destruct (compile a b) as [st2 cr] end.
    simpl in *. split; [exact Hm|now apply success_spec].
Qed.

(** C2. An edit of a clause id that is not a key of the clause map returns
    the error ["Clause '<id>' not found"] and the session as it was:
    document, clause map, messages, goals, compilation counter and prover
    are those before the call. *)
Theorem edit_unknown_clause (st : AgentState Prover) (cid new : str) :
  ~ In cid (dict_keys (editable_clauses st)) ->
  edit st cid new
  = (st, Returned (EditError (py "Clause '" ++ cid ++ py "' not found")
                             (thread_info_of ident instance_id st))).
Proof.
  intros H. apply dict_get_keys in H. unfold edit_clause. now rewrite H.
Qed.

(** C6. After [load_theorem] the panel shows the document as it was given,
    while the prover was run on the text with the theorem names made
    unique; and reading the panel returns the session as it was. *)
Theorem panel_shows_loaded_document (st : AgentState Prover) (doc : str) :
  p_current_code (snd (panel (fst (load st doc)))) = doc /\
  current_code (fst (load st doc)) = doc /\
  prover (fst (load st doc))
  = fst (run_command (prover st) (unique doc ident (session_id st))) /\
  (forall s : AgentState Prover, fst (panel s) = s).
Proof.
  repeat split.
  - simpl. apply load_code.
  - apply load_code.
  - rewrite load_compile. simpl. now rewrite compile_prover.
Qed.

(** C10. An edit of a clause id that is a key of the clause map is applied:
    the result has [edit_successful] true, the old text of the clause, the
    new text and the document after the edit, which is the document before
    with the line of the clause rebuilt. The state after the edit and the
    compilation in the result are those of one compilation of that
    document: the prover is run once on it, with its theorem names made
    unique, and the counter is one more. The flag does not depend on what
    that compilation reports. *)
Theorem edit_known_clause_applied (st : AgentState Prover) (cid new : str) :
  reachable st ->
  In cid (dict_keys (editable_clauses st)) ->
  exists c i ln st' r,
    dict_get cid (editable_clauses st) = Some c /\
    line (start_pos c) = Z.of_nat i /\
    nth_error (split_on NL (current_code st)) i = Some ln /\
    edit st cid new = (st', Returned (EditOk r)) /\
    edit_successful r = true /\
    ea_clause_id r = cid /\
    ea_clause_type r = clause_type c /\
    old_content r = content c /\
    new_content r = new /\
    updated_code r
    = join [NL] (update_nth (split_on NL (current_code st)) i
                            (edited_line c ln new)) /\
    updated_code r = current_code st' /\
    (st', compilation_result r)
    = compile (set_current_code st (updated_code r))
              (unique (updated_code r) (thread_id st) (session_id st)) /\
    compilation_id st' = S (compilation_id st) /\
    (let answer :=
       run_command (prover st)
                   (unique (updated_code r) (thread_id st) (session_id st)) in
     prover st' = fst answer /\
     current_messages st' = parse_messages (snd answer) /\
     messages (compilation_result r) = parse_messages (snd answer)) /\
    success (compilation_result r)
    = negb (has_severity (py "error") (messages (compilation_result r))).
Proof.
  intros Hr Hin. apply reachable_derived in Hr.
  destruct (dict_get cid (editable_clauses st)) as [c|] eqn:Hc;
    [|now apply dict_get_keys in Hc].
  destruct (derived_clause_line _ unicode_alnum _ _ _ Hr Hc)
    as (_ & i & ln & m & Hl & Hln & _).
  exists c, i, ln.
  rewrite (edit_applied _ run_command unicode_alnum ident instance_id
                        _ _ new _ _ _ Hc Hl Hln).
  unfold EditSpec.edit_outcome. cbv zeta.
  eexists. eexists.
  split; [reflexivity|]. split; [exact Hl|]. split; [exact Hln|].
  split; [reflexivity|].
  cbn [edit_successful ea_clause_id ea_clause_type old_content new_content
       updated_code compilation_result].
  set (doc := join [NL] (update_nth (split_on NL (current_code st)) i
                                    (edited_line c ln new))).
  change (current_code (set_current_code st doc)) with doc.
  change (thread_id (set_current_code st doc)) with (thread_id st).
  change (session_id (set_current_code st doc)) with (session_id st).
  destruct (compile_messages _ run_command unicode_alnum
              (set_current_code st doc)
              (unique doc (thread_id st) (session_id st))) as [Hm1 Hm2].
  repeat split; try reflexivity.
  - now rewrite compile_code.
  - symmetry. apply surjective_pairing.
  - now rewrite compile_counter.
  - now rewrite compile_prover.
  - exact Hm1.
  - now rewrite Hm2, Hm1.
  - apply compile_success.
Qed.

(** C3, as the code has it. Loading the one-line document
    [theorem t (A B : Prop) : A ∧ B → B ∧ A := by sorry] gives a clause map
    of exactly one clause, [main_proof_0] of category ['main_proof'] with
    the text ['sorry'] (the proof is on the line of the theorem). Editing it
    to [intro h; exact ⟨h.right, h.left⟩] gives the document with that proof
    and again one clause [main_proof_0] of category ['main_proof']; no
    clause of category ['sorry'] is in the map. *)
Theorem swap_example_clauses (st : AgentState Prover) :
  let st1 := fst (load st Demo.swap_doc) in
  let st2 := fst (edit st1 (py "main_proof_0") Demo.swap_proof) in
  editable_clauses st1
  = [(py "main_proof_0", Demo.swap_clause 50 (py "sorry"))] /\
  current_code st2 = Demo.swap_done /\
  editable_clauses st2
  = [(py "main_proof_0", Demo.swap_clause 77 Demo.swap_proof)] /\
  (forall k c, In (k, c) (editable_clauses st2) -> clause_type c <> py "sorry").
Proof.
  cbv zeta.
  assert (H1 : editable_clauses (fst (load st Demo.swap_doc))
               = [(py "main_proof_0", Demo.swap_clause 50 (py "sorry"))]).
  { rewrite load_clauses. vm_compute. reflexivity. }
  rewrite (edit_applied _ run_command unicode_alnum ident instance_id
             _ _ Demo.swap_proof (Demo.swap_clause 50 (py "sorry")) 0
             Demo.swap_doc).
  2:{ rewrite H1. vm_compute. reflexivity. }
  2:{ reflexivity. }
  2:{ rewrite load_code. vm_compute. reflexivity. }
  unfold EditSpec.edit_outcome. cbv zeta. simpl fst.
  rewrite compile_clauses, compile_code. simpl current_code.
  rewrite load_code.
  assert (H2 : join [NL]
                 (update_nth (split_on NL Demo.swap_doc) 0
                    (edited_line (Demo.swap_clause 50 (py "sorry"))
                                 Demo.swap_doc Demo.swap_proof))
               = Demo.swap_done)
    by (vm_compute; reflexivity).
  rewrite H2.
  assert (H3 : identify Demo.swap_done
               = [(py "main_proof_0", Demo.swap_clause 77 Demo.swap_proof)])
    by (vm_compute; reflexivity).
  rewrite H3. repeat split; try assumption.
  intros k c [[= <- <-]|[]]. discriminate.
Qed.

(** C5, as the code has it. When the prover returns its answer, the result
    of [load_theorem] holds a message of severity ['error'], and has
    [success] false, exactly when the text of the answer contains the tag
    ["[error]"]; any other text, whatever it says, yields no such message.
    An answer in which nothing is recognized (no text, or a text without
    the tags ["[error]"], ["[warning]"] and ["[info]"] that is not
    [Success]) yields the one message ['Compilation completed'], of
    severity ['info'], and [success] true. After the call the document is
    the one given, the counter is one more, the clause map is the scan of
    the document, and every edit returns. *)
Theorem load_reports_tagged_errors (st : AgentState Prover) (code : str) :
  let answer :=
    snd (run_command (prover st) (unique code ident (session_id st))) in
  let st' := fst (load st code) in
  let r := snd (load st code) in
  let unrecognized :=
    response answer = None \/
    exists txt, response answer = Some txt /\
                contains (py "[error]") txt = false /\
                contains (py "[warning]") txt = false /\
                contains (py "[info]") txt = false /\
                strip txt <> py "Success" in
  ((exists m, In m (messages r) /\ severity m = py "error") <->
   (exists txt, response answer = Some txt /\
                contains (py "[error]") txt = true)) /\
  (success r = false <->
   (exists txt, response answer = Some txt /\
                contains (py "[error]") txt = true)) /\
  (unrecognized ->
   messages r = [mk_message (py "info") (py "Compilation completed")] /\
   current_messages st' = messages r /\
   success r = true) /\
  current_code st' = code /\
  compilation_id st' = S (compilation_id st) /\
  derived st' /\
  (forall cid new, exists st'' res, edit st' cid new = (st'', Returned res)).
Proof.
  cbv zeta.
  assert (Hcur : current_messages (fst (load st code))
                 = messages (snd (load st code))).
  { rewrite load_compile. simpl.
    destruct (compile_messages _ run_command unicode_alnum
                (set_current_code st code)
                (unique code ident (session_id st))) as [_ H2].
    now rewrite H2. }
  assert (Hm : messages (snd (load st code))
               = parse_messages
                   (snd (run_command (prover st)
                                     (unique code ident (session_id st))))).
  { rewrite load_compile. simpl.
    destruct (compile_messages _ run_command unicode_alnum
                (set_current_code st code)
                (unique code ident (session_id st))) as [H1 H2].
    now rewrite H2, H1. }
  assert (Hs : success (snd (load st code))
               = negb (has_severity (py "error") (messages (snd (load st code))))).
  { rewrite load_compile. simpl. apply compile_success. }
  split; [|split; [|split; [|split; [|split; [|split]]]]].
  - rewrite Hm. apply parse_messages_error.
  - rewrite <- parse_messages_error, <- Hm, Hs, negb_false_iff.
    apply has_severity_spec.
  - intros Hun.
    assert (Hone : messages (snd (load st code))
                   = [mk_message (py "info") (py "Compilation completed")]).
    { rewrite Hm. unfold parse_messages.
      destruct Hun as [->|(txt & -> & He & Hw & Hi & Hsucc)]; [reflexivity|].
      rewrite (tagged_message_absent (py "error") txt He),
              (tagged_message_absent (py "warning") txt Hw),
              (tagged_message_absent (py "info") txt Hi).
      apply str_eqb_neq in Hsucc. rewrite Hsucc, andb_false_r.
      now destruct (nonempty txt). }
    split; [exact Hone|]. split; [exact Hcur|].
    rewrite Hs, Hone. reflexivity.
  - apply load_code.
  - rewrite load_compile. simpl. now rewrite compile_counter.
  - apply load_derived.
  - intros cid new. apply edit_returns, load_derived.
Qed.

(** C8, at a [have] whose proof starts on the next line. The clause
    [have_h] of the document
    [theorem t : True := by / have h : True := by / trivial] is recorded on
    line 1, which has 21 characters, with the start column 22 and the end
    column 21: the start of the span lies beyond the line and beyond its
    end. An edit of the clause returns all the same. In every document,
    every clause of the map is on a line of the document, and the span of a
    clause of any category but ['have'] lies within that line. *)
Theorem have_span_past_line_end (st : AgentState Prover) (doc : str) :
  (let st1 := fst (load st Demo.open_have_doc) in
   exists c ln,
     dict_get (py "have_h") (editable_clauses st1) = Some c /\
     list_get (split_on NL (current_code st1)) (line (start_pos c)) = Some ln /\
     len ln = 21%Z /\
     column (start_pos c) = 22%Z /\
     column (end_pos c) = 21%Z /\
     (forall new, exists st2 res,
         edit st1 (py "have_h") new = (st2, Returned res))) /\
  (let st1 := fst (load st doc) in
   forall cid c,
     dict_get cid (editable_clauses st1) = Some c ->
     exists ln,
       list_get (split_on NL (current_code st1)) (line (start_pos c)) = Some ln /\
       (clause_type c <> py "have" ->
        (0 <= column (start_pos c) <= column (end_pos c))%Z /\
        (column (end_pos c) <= len ln)%Z)).
Proof.
  cbv zeta. split.
  - rewrite load_clauses, load_code.
    eexists. eexists.
    split; [vm_compute; reflexivity|].
    split; [vm_compute; reflexivity|].
    split; [vm_compute; reflexivity|].
    split; [vm_compute; reflexivity|].
    split; [vm_compute; reflexivity|].
    intros new. apply edit_returns, load_derived.
  - intros cid c Hc.
    destruct (derived_clause_line _ unicode_alnum _ _ _
                (load_derived _ run_command unicode_alnum ident instance_id
                              st doc) Hc)
      as (_ & i & ln & m & Hl & Hln & Hcl).
    exists ln. split; [rewrite Hl; now apply list_get_nat|].
    now apply (clause_span_within_line unicode_alnum i ln m c).
Qed.

(** The new line, by category. *)
Lemma edited_line_sorry c ln new :
  clause_type c = py "sorry" ->
  edited_line c ln new = replace (py "sorry") new ln.
Proof. unfold edited_line. now intros ->. Qed.

Lemma edited_line_have c ln new q :
  clause_type c = py "have" -> index_of (py "by") ln = Some q ->
  edited_line c ln new = firstn (q + 2) ln ++ py " " ++ new.
Proof.
  unfold edited_line. intros -> Hq.
  change (str_eqb (py "have") (py "sorry")) with false.
  change (str_eqb (py "have") (py "have")) with true. cbv iota.
  rewrite (find_index_of _ _ _ Hq).
  replace (Z.of_nat q =? -1)%Z with false by (symmetry; apply Z.eqb_neq; lia).
  cbv iota. simpl negb. cbv iota.
  replace (Z.of_nat q + 2)%Z with (Z.of_nat (q + 2)) by lia.
  rewrite slice_to_nat; [reflexivity|].
  apply index_of_bound in Hq. simpl in Hq. lia.
Qed.

Lemma edited_line_whole c ln new :
  clause_type c = py "tactic" \/ clause_type c = py "proof_line" ->
  edited_line c ln new = spaces (length ln - length (lstrip ln)) ++ new.
Proof. unfold edited_line. now intros [-> | ->]. Qed.

(** C4, as the code has it. An edit of a clause of the map rewrites the
    line the clause is on and no other: the lines before and after it are
    those of the document before, and the new line is made from the old one
    by the rule of the clause's category.
    - ['sorry']: every occurrence of [sorry] in the line is replaced by the
      new text; the clause records the span of the first one, and when the
      line has no other occurrence the new line is the old one with that
      span replaced.
    - ['have']: when the first [by] of the line is the one that introduces
      the proof, the line is kept up to it and a blank and the new text
      follow.
    - ['tactic'], ['proof_line']: when the line is indented with blanks
      only, the new line is the indentation of the old one and the new
      text. *)
Theorem edit_rewrites_owning_line
        (st : AgentState Prover) (cid new : str) (c : EditableClause) :
  reachable st ->
  dict_get cid (editable_clauses st) = Some c ->
  exists i ln,
    let lines := split_on NL (current_code st) in
    let new_line := edited_line c ln new in
    let indent := length ln - length (lstrip ln) in
    line (start_pos c) = Z.of_nat i /\
    nth_error lines i = Some ln /\
    edit st cid new = edit_outcome st cid new c i ln /\
    current_code (fst (edit st cid new))
    = join [NL] (update_nth lines i new_line) /\
    split_on NL (current_code (fst (edit st cid new)))
    = firstn i lines ++ split_on NL new_line ++ skipn (S i) lines /\
    (clause_type c = py "sorry" ->
     new_line = replace (py "sorry") new ln /\
     exists p,
       index_of (py "sorry") ln = Some p /\
       column (start_pos c) = Z.of_nat p /\
       column (end_pos c) = Z.of_nat (p + 5) /\
       (index_of (py "sorry") (skipn (p + 5) ln) = None ->
        new_line = firstn p ln ++ new ++ skipn (p + 5) ln)) /\
    (clause_type c = py "have" ->
     forall m, match_have unicode_alnum (strip ln) = Some m ->
       index_of (py "by") ln = Some (indent + hm_by m) ->
       new_line = firstn (indent + hm_by m + 2) ln ++ py " " ++ new) /\
    (clause_type c = py "tactic" \/ clause_type c = py "proof_line" ->
     firstn indent ln = spaces indent ->
     new_line = firstn indent ln ++ new).
Proof.
  intros Hr Hc. apply reachable_derived in Hr.
  destruct (edit_known_derived _ run_command unicode_alnum ident instance_id
              st cid new c Hr Hc) as (i & ln & n & Hl & Hln & Hcl & He).
  exists i, ln. cbv zeta.
  assert (Hcode : current_code (fst (edit st cid new))
                  = join [NL] (update_nth (split_on NL (current_code st)) i
                                          (edited_line c ln new))).
  { rewrite He. unfold EditSpec.edit_outcome. cbv zeta. simpl fst.
    now rewrite compile_code. }
  split; [exact Hl|]. split; [exact Hln|]. split; [exact He|].
  split; [exact Hcode|].
  split; [rewrite Hcode; exact (split_on_join_update NL _ _ ln i Hln)|].
  split; [|split].
  - intros Hty. split; [now apply edited_line_sorry|].
    inversion Hcl as [p Hp E|m Hm E|Hs E|Hb E|E|E];
      rewrite <- E in Hty; simpl in Hty; try discriminate Hty.
    apply contains_strip, contains_index_of in Hs. destruct Hs as [p Hp].
    exists p. simpl. rewrite (find_index_of _ _ _ Hp).
    split; [exact Hp|]. split; [reflexivity|]. split; [lia|].
    intros Hrest. rewrite edited_line_sorry by (now subst c).
    apply (replace_single (py "sorry") new ln p);
      [discriminate|exact Hp|exact Hrest].
  - intros Hty m _ Hby. now apply edited_line_have.
  - intros Hty ->. now apply edited_line_whole.
Qed.


(** Every line [add_proof_structure] keeps starts with two blanks. *)
Lemma indent_line_indented (l x : str) :
  In x (indent_line l) -> startswith (py "  ") x = true.
Proof.
  unfold indent_line. destruct (nonempty (strip l)) eqn:Hne; [|intros []].
  destruct (startswith (py "  ") l) eqn:Hs; cbn [negb]; intros [<-|[]];
    [|apply startswith_app].
  apply startswith_split in Hs. change (length (py "  ")) with 2 in Hs.
  remember (skipn 2 l) as l' eqn:El'. rewrite Hs in Hne |- *.
  assert (Hr : rstrip l' <> []).
  { assert (Hstrip : strip (py "  " ++ l') = strip l') by reflexivity.
    rewrite Hstrip in Hne. unfold strip in Hne.
    rewrite (lstrip_suffix l'). intros E.
    destruct (rstrip (lstrip l')) eqn:E'; [discriminate Hne|].
    rewrite rstrip_app in E by (rewrite E'; discriminate).
    apply app_eq_nil in E. destruct E as [_ E]. congruence. }
  rewrite rstrip_app by exact Hr. apply startswith_app.
Qed.

Lemma indent_lines_map (ls : list str) :
  flat_map indent_line ls
  = map (fun l => if startswith (py "  ") l then rstrip l
                  else py "  " ++ strip l)
        (filter (fun l => nonempty (strip l)) ls).
Proof.
  induction ls as [|l ls IH]; [reflexivity|].
  cbn [flat_map filter]. rewrite IH. unfold indent_line.
  destruct (nonempty (strip l)); [|reflexivity].
  cbn [map]. now destruct (startswith (py "  ") l).
Qed.

(** The first key with one of the two prefixes belongs to the clause that
    comes first in the document. *)
Lemma first_main_entry (d : dict) (k : str) (rest : list str) :
  NoDup (dict_keys d) -> StronglySorted Z.lt (main_lines d) ->
  filter is_main_proof_id (dict_keys d) = k :: rest ->
  exists c,
    dict_get k d = Some c /\
    forall k' c', dict_get k' d = Some c' -> is_main_proof_id k' = true ->
                  k' <> k -> (line (start_pos c) < line (start_pos c'))%Z.
Proof.
  intros Hnd Hsorted Hk. rewrite main_keys_entries in Hk.
  unfold main_lines in Hsorted.
  destruct (main_entries d) as [|[k0 c] tl] eqn:E; [discriminate Hk|].
  simpl in Hk. injection Hk as -> _.
  assert (Hin : In (k, c) (main_entries d)) by (rewrite E; now left).
  apply filter_In in Hin. exists c. split.
  - apply In_dict_get; tauto.
  - intros k' c' Hc' Hmain Hne.
    assert (Hin' : In (k', c') (main_entries d)).
    { apply filter_In. split; [now apply dict_get_In|exact Hmain]. }
    rewrite E in Hin'. destruct Hin' as [[= -> ->]|Hin']; [contradiction|].
    simpl in Hsorted. inversion Hsorted as [|? ? _ Hall]; subst.
    rewrite Forall_forall in Hall. apply Hall.
    apply in_map_iff. now exists (k', c').
Qed.

(** C9. [add_proof_structure] keeps the lines that are not blank, each with
    an indentation of two blanks at least, joins them with newlines and
    edits with that text the first clause of the document whose id starts
    with [main_proof] or [sorry]; the edit is applied. When no clause id
    starts with either, it returns the error ["No main proof clause found
    to add structure to"] and the session as it was. *)
Theorem add_structure_target (st : AgentState Prover) (ls : list str) :
  reachable st ->
  let new_structure := join [NL] (flat_map indent_line ls) in
  let wanted k :=
    startswith (py "main_proof") k || startswith (py "sorry") k in
  let keys := dict_keys (editable_clauses st) in
  Forall (fun l => startswith (py "  ") l = true) (flat_map indent_line ls) /\
  flat_map indent_line ls
  = map (fun l => if startswith (py "  ") l then rstrip l
                  else py "  " ++ strip l)
        (filter (fun l => nonempty (strip l)) ls) /\
  ((forall k, In k keys -> wanted k = false) ->
   add_structure st ls
   = (st, Returned (EditError
                      (py "No main proof clause found to add structure to")
                      (thread_info_of ident instance_id st)))) /\
  ((exists k, In k keys /\ wanted k = true) ->
   exists cid c st' r,
     dict_get cid (editable_clauses st) = Some c /\
     wanted cid = true /\
     (forall cid' c',
         dict_get cid' (editable_clauses st) = Some c' ->
         wanted cid' = true -> cid' <> cid ->
         (line (start_pos c) < line (start_pos c'))%Z) /\
     add_structure st ls = edit st cid new_structure /\
     edit st cid new_structure = (st', Returned (EditOk r)) /\
     ea_clause_id r = cid /\
     new_content r = new_structure).
Proof.
  intros Hr. apply reachable_derived in Hr. cbv zeta.
  assert (Hwanted : forall k,
             In k (dict_keys (editable_clauses st)) ->
             startswith (py "main_proof") k || startswith (py "sorry") k
             = is_main_proof_id k).
  { intros k Hk. apply in_map_iff in Hk. destruct Hk as ([k0 c] & <- & Hin).
    rewrite Hr in Hin.
    destruct (inv_entries (identify_inv unicode_alnum (current_code st))
                          _ _ Hin) as (-> & i & ln & m & _ & _ & _ & Hcl).
    simpl. exact (clause_key_prefix _ _ _ _ _ Hcl). }
  split; [|split; [|split]].
  - apply Forall_forall. intros x Hx. apply in_flat_map in Hx.
    destruct Hx as (l & _ & Hx). now apply (indent_line_indented l).
  - apply indent_lines_map.
  - intros Hnone. unfold add_proof_structure.
    destruct (filter is_main_proof_id (dict_keys (editable_clauses st)))
      as [|k rest] eqn:E; [reflexivity|].
    assert (Hk : In k (filter is_main_proof_id
                               (dict_keys (editable_clauses st))))
      by (rewrite E; now left).
    apply filter_In in Hk. destruct Hk as [Hk Hmain].
    rewrite <- (Hwanted k Hk), (Hnone k Hk) in Hmain. discriminate Hmain.
  - intros (k0 & Hk0 & Hw0). unfold add_proof_structure.
    destruct (filter is_main_proof_id (dict_keys (editable_clauses st)))
      as [|k rest] eqn:E.
    { assert (Hk : In k0 (filter is_main_proof_id
                                 (dict_keys (editable_clauses st)))).
      { apply filter_In. split; [exact Hk0|]. now rewrite <- Hwanted. }
      rewrite E in Hk. destruct Hk. }
    pose proof (identify_inv unicode_alnum (current_code st)) as Hinv.
    destruct (first_main_entry (editable_clauses st) k rest) as (c & Hc & Hfirst).
    { rewrite Hr. exact (inv_nodup Hinv). }
    { rewrite Hr. exact (inv_sorted Hinv). }
    { exact E. }
    assert (Hk : In k (dict_keys (editable_clauses st)) /\
                 is_main_proof_id k = true).
    { apply filter_In. rewrite E. now left. }
    destruct (edit_known_derived _ run_command unicode_alnum ident instance_id
                st k (join [NL] (flat_map indent_line ls)) c Hr Hc)
      as (i & ln & m & _ & _ & _ & He).
    exists k, c. rewrite He. unfold EditSpec.edit_outcome. cbv zeta.
    eexists. eexists.
    split; [exact Hc|]. split; [rewrite Hwanted; tauto|].
    split.
    { intros k' c' Hc' Hw' Hne. apply (Hfirst k' c' Hc'); [|exact Hne].
      rewrite <- Hwanted; [exact Hw'|].
      apply dict_get_In in Hc'. apply in_map_iff. now exists (k', c'). }
    repeat split; reflexivity.
Qed.

End Session.

End Claims.

(* ===================================================================== *)
(** * The properties on the example sessions *)
(* ===================================================================== *)

Module Examples.
Import PyStr PyStrFacts Agent ScanSpec EditSpec.

Local Open Scope string_scope.
Local Open Scope list_scope.

Lemma reachable_loaded (text : string) (doc : str) :
  Demo.reachable text (fst (Demo.load text Demo.start doc)).
Proof. apply reach_load, reach_init. Qed.

(** A warning leaves [success] true. *)
Lemma success_iff_no_error_message_witness :
  success (snd (Demo.load "[warning] unused variable h" Demo.start
                          Demo.sorry_doc)) = true.
Proof.
  destruct (Claims.success_iff_no_error_message
              unit (Demo.reply "[warning] unused variable h")
              Demo.no_unicode_alnum Demo.ident Demo.instance
              Demo.start Demo.sorry_doc (py "sorry_0") (py "trivial"))
    as [[_ H] _].
  apply H. intros m Hin. vm_compute in Hin.
  destruct Hin as [<-|[]]. vm_compute. discriminate.
Defined.

(** After loading the example document, [sorry_0] is not a key. *)
Lemma edit_unknown_clause_witness :
  let st := fst (Demo.load "Success" Demo.start Demo.swap_doc) in
  Demo.edit "Success" st (py "sorry_0") Demo.swap_proof
  = (st, Returned (EditError (py "Clause 'sorry_0' not found")
                             (thread_info_of Demo.ident Demo.instance st))).
Proof.
  apply (Claims.edit_unknown_clause
           unit (Demo.reply "Success") Demo.no_unicode_alnum
           Demo.ident Demo.instance).
  vm_compute. intros [H|[]]. discriminate H.
Defined.

(** C3 as stated fails: the one clause of the example document has the
    category ['main_proof'], not ['sorry']. *)
Lemma swap_example_not_sorry :
  ~ (exists k c,
        editable_clauses (fst (Demo.load "Success" Demo.start Demo.swap_doc))
        = [(k, c)] /\
        clause_type c = py "sorry").
Proof.
  intros (k & c & H & Hty). vm_compute in H.
  injection H as _ <-. vm_compute in Hty. discriminate Hty.
Qed.

(** C4 as stated fails. On a line with two placeholders the clause
    [sorry_0] records the span of the first, columns 9 to 14, and the edit
    replaces both. The edit of a tactic line indented with a tab puts a
    blank in place of the tab. The edit of a [have] whose name holds [by]
    cuts the line after the name, not after the [by] that introduces the
    proof. *)
Lemma edit_replaces_every_sorry :
  (let st1 := fst (Demo.load "Success" Demo.start Demo.two_sorry_doc) in
   let st2 := fst (Demo.edit "Success" st1 (py "sorry_0") (py "trivial")) in
   exists c ln,
     dict_get (py "sorry_0") (editable_clauses st1) = Some c /\
     clause_type c = py "sorry" /\
     start_pos c = {| line := 1; column := 9 |} /\
     end_pos c = {| line := 1; column := 14 |} /\
     nth_error (split_on NL (current_code st1)) 1 = Some ln /\
     ln = py "  exact ⟨sorry, sorry⟩" /\
     nth_error (split_on NL (current_code st2)) 1
     = Some (py "  exact ⟨trivial, trivial⟩") /\
     py "  exact ⟨trivial, trivial⟩"
     <> slice_to ln 9 ++ py "trivial" ++ slice_from ln 14) /\
  (let st1 := fst (Demo.load "Success" Demo.start Demo.tab_doc) in
   let st2 := fst (Demo.edit "Success" st1 (py "tactic_0") (py "rfl")) in
   exists c,
     dict_get (py "tactic_0") (editable_clauses st1) = Some c /\
     clause_type c = py "tactic" /\
     nth_error (split_on NL (current_code st1)) 1 = Some (9%N :: py "trivial") /\
     nth_error (split_on NL (current_code st2)) 1 = Some (py " rfl") /\
     py " rfl" <> 9%N :: py "rfl") /\
  (let st1 := fst (Demo.load "Success" Demo.start Demo.hby_doc) in
   let st2 := fst (Demo.edit "Success" st1 (py "have_hby") (py "trivial")) in
   exists c ln m,
     dict_get (py "have_hby") (editable_clauses st1) = Some c /\
     clause_type c = py "have" /\
     nth_error (split_on NL (current_code st1)) 1 = Some ln /\
     ln = py "  have hby : True := by sorry" /\
     match_have Demo.no_unicode_alnum (strip ln) = Some m /\
     hm_by m = 19 /\
     index_of (py "by") ln = Some 8 /\
     nth_error (split_on NL (current_code st2)) 1
     = Some (py "  have hby trivial") /\
     py "  have hby trivial" <> firstn (2 + hm_by m + 2) ln ++ py " trivial").
Proof.
  cbv zeta. split; [|split].
  - eexists. eexists.
    split; [vm_compute; reflexivity|].
    split; [vm_compute; reflexivity|].
    split; [vm_compute; reflexivity|].
    split; [vm_compute; reflexivity|].
    split; [vm_compute; reflexivity|].
    split; [vm_compute; reflexivity|].
    split; [vm_compute; reflexivity|].
    vm_compute. discriminate.
  - eexists.
    split; [vm_compute; reflexivity|].
    split; [vm_compute; reflexivity|].
    split; [vm_compute; reflexivity|].
    split; [vm_compute; reflexivity|].
    vm_compute. discriminate.
  - eexists. eexists. eexists.
    split; [vm_compute; reflexivity|].
    split; [vm_compute; reflexivity|].
    split; [vm_compute; reflexivity|].
    split; [vm_compute; reflexivity|].
    split; [vm_compute; reflexivity|].
    split; [vm_compute; reflexivity|].
    split; [vm_compute; reflexivity|].
    split; [vm_compute; reflexivity|].
    vm_compute. discriminate.
Qed.

(** The three rules on example documents: a placeholder on a line of its
    own, the first [have] of the demonstration document, whose first [by]
    introduces the proof, and its tactic line [intro h]. *)
Lemma edit_rewrites_owning_line_witness :
  (let st1 := fst (Demo.load "Success" Demo.start Demo.sorry_doc) in
   current_code (fst (Demo.edit "Success" st1 (py "sorry_0") (py "trivial")))
   = Demo.lines_of ["theorem t : True := by"; "  trivial"]) /\
  (let st1 := fst (Demo.load "Success" Demo.start Demo.demo_doc) in
   let new := py "intro h; exact h.left" in
   exists c ln m,
     dict_get (py "have_h1") (editable_clauses st1) = Some c /\
     clause_type c = py "have" /\
     nth_error (split_on NL (current_code st1)) 1 = Some ln /\
     match_have Demo.no_unicode_alnum (strip ln) = Some m /\
     index_of (py "by") ln = Some (length ln - length (lstrip ln) + hm_by m) /\
     edited_line c ln new
     = py "  have h1 : (P ∧ Q) ∧ R → P ∧ Q := by intro h; exact h.left") /\
  (let st1 := fst (Demo.load "Success" Demo.start Demo.demo_doc) in
   exists c ln,
     dict_get (py "tactic_4") (editable_clauses st1) = Some c /\
     clause_type c = py "tactic" /\
     nth_error (split_on NL (current_code st1)) 5 = Some ln /\
     edited_line c ln (py "intro hpqr") = py "  intro hpqr").
Proof.
  cbv zeta. split; [|split].
  - destruct (dict_get (py "sorry_0")
                (editable_clauses
                   (fst (Demo.load "Success" Demo.start Demo.sorry_doc))))
      as [c|] eqn:Hc; [|vm_compute in Hc; discriminate Hc].
    destruct (Claims.edit_rewrites_owning_line
                unit (Demo.reply "Success") Demo.no_unicode_alnum tt
                Demo.ident Demo.session Demo.instance
                (fst (Demo.load "Success" Demo.start Demo.sorry_doc))
                (py "sorry_0") (py "trivial") c
                (reachable_loaded "Success" Demo.sorry_doc) Hc)
      as (i & ln & Hl & Hln & _ & Hcode & _).
    cbv zeta in Hcode. unfold Demo.edit. rewrite Hcode.
    vm_compute in Hc. injection Hc as <-.
    simpl line in Hl. assert (Hi : i = 1%nat) by lia. subst i.
    vm_compute in Hln. injection Hln as <-.
    vm_compute. reflexivity.
  - destruct (dict_get (py "have_h1")
                (editable_clauses
                   (fst (Demo.load "Success" Demo.start Demo.demo_doc))))
      as [c|] eqn:Hc; [|vm_compute in Hc; discriminate Hc].
    destruct (Claims.edit_rewrites_owning_line
                unit (Demo.reply "Success") Demo.no_unicode_alnum tt
                Demo.ident Demo.session Demo.instance
                (fst (Demo.load "Success" Demo.start Demo.demo_doc))
                (py "have_h1") (py "intro h; exact h.left") c
                (reachable_loaded "Success" Demo.demo_doc) Hc)
      as (i & ln & Hl & Hln & _ & _ & _ & _ & Hhave & _).
    cbv zeta in Hhave.
    vm_compute in Hc. injection Hc as <-.
    simpl line in Hl. assert (Hi : i = 1%nat) by lia. subst i.
    assert (Hln' := Hln). vm_compute in Hln'. injection Hln' as <-.
    eexists. eexists. eexists.
    split; [reflexivity|]. split; [reflexivity|]. split; [exact Hln|].
    split; [vm_compute; reflexivity|].
    split; [vm_compute; reflexivity|].
    rewrite (Hhave eq_refl _ ltac:(vm_compute; reflexivity)
                   ltac:(vm_compute; reflexivity)).
    vm_compute. reflexivity.
  - destruct (dict_get (py "tactic_4")
                (editable_clauses
                   (fst (Demo.load "Success" Demo.start Demo.demo_doc))))
      as [c|] eqn:Hc; [|vm_compute in Hc; discriminate Hc].
    destruct (Claims.edit_rewrites_owning_line
                unit (Demo.reply "Success") Demo.no_unicode_alnum tt
                Demo.ident Demo.session Demo.instance
                (fst (Demo.load "Success" Demo.start Demo.demo_doc))
                (py "tactic_4") (py "intro hpqr") c
                (reachable_loaded "Success" Demo.demo_doc) Hc)
      as (i & ln & Hl & Hln & _ & _ & _ & _ & _ & Hwhole).
    cbv zeta in Hwhole.
    vm_compute in Hc. injection Hc as <-.
    simpl line in Hl. assert (Hi : i = 5%nat) by lia. subst i.
    assert (Hln' := Hln). vm_compute in Hln'. injection Hln' as <-.
    eexists. eexists.
    split; [reflexivity|]. split; [reflexivity|]. split; [exact Hln|].
    rewrite (Hwhole (or_introl eq_refl) ltac:(vm_compute; reflexivity)).
    vm_compute. reflexivity.
Defined.

(** C5 as stated fails: an answer that reports a timeout without the tag
    ["[error]"] gives one message of severity ['info'] and [success]
    true. *)
Lemma timeout_text_is_not_an_error :
  let r := snd (Demo.load "Lean server timed out after 60 seconds"
                          Demo.start Demo.sorry_doc) in
  success r = true /\
  map severity (messages r) = [py "info"] /\
  map message (messages r) = [py "Compilation completed"] /\
  ~ (exists m, In m (messages r) /\ severity m = py "error").
Proof.
  cbv zeta. split; [vm_compute; reflexivity|].
  split; [vm_compute; reflexivity|].
  split; [vm_compute; reflexivity|].
  intros (m & Hin & Hsev). vm_compute in Hin.
  destruct Hin as [<-|[]]. vm_compute in Hsev. discriminate Hsev.
Qed.

(** The panel after loading, and the text the prover was given. *)
Lemma panel_after_load_example :
  let st1 := fst (Demo.load "Success" Demo.start Demo.sorry_doc) in
  p_current_code (snd (get_interactive_panel Demo.ident Demo.instance st1))
  = Demo.sorry_doc /\
  make_thread_unique_code Demo.no_unicode_alnum Demo.sorry_doc Demo.ident
                          Demo.session
  = Demo.lines_of ["theorem t_t737_s5f3a9c1e : True := by"; "  sorry"].
Proof. split; vm_compute; reflexivity. Qed.



(** Structure added at the placeholder of a document, and refused by a new
    session. *)
Lemma add_structure_target_witness :
  let st1 := fst (Demo.load "Success" Demo.start Demo.sorry_doc) in
  let ls := [py "have h : True := by trivial"; py "   "; py "  exact h  "] in
  (exists st' r,
      Demo.add "Success" st1 ls = (st', Returned (EditOk r)) /\
      ea_clause_id r = py "sorry_0" /\
      new_content r
      = Demo.lines_of ["  have h : True := by trivial"; "  exact h"]) /\
  Demo.add "Success" Demo.start ls
  = (Demo.start,
     Returned (EditError
                 (py "No main proof clause found to add structure to")
                 (thread_info_of Demo.ident Demo.instance Demo.start))).
Proof.
  cbv zeta. split.
  - destruct (Claims.add_structure_target
                unit (Demo.reply "Success") Demo.no_unicode_alnum tt
                Demo.ident Demo.session Demo.instance
                (fst (Demo.load "Success" Demo.start Demo.sorry_doc))
                [py "have h : True := by trivial"; py "   "; py "  exact h  "]
                (reachable_loaded "Success" Demo.sorry_doc))
      as (_ & _ & _ & H).
    destruct H as (cid & c & st' & r & Hc & _ & _ & Hadd & Hedit & Hid & Hnew).
    { exists (py "sorry_0"). split; vm_compute; [now left|reflexivity]. }
    exists st', r. unfold Demo.add. rewrite Hadd, Hedit.
    split; [reflexivity|].
    assert (Hcid : cid = py "sorry_0").
    { apply ScanFacts.dict_get_In in Hc. vm_compute in Hc.
      destruct Hc as [Hc|[]]. now injection Hc as <- _. }
    split; [congruence|]. rewrite Hnew. vm_compute. reflexivity.
  - destruct (Claims.add_structure_target
                unit (Demo.reply "Success") Demo.no_unicode_alnum tt
                Demo.ident Demo.session Demo.instance
                Demo.start
                [py "have h : True := by trivial"; py "   "; py "  exact h  "]
                (reach_init _ _ _ _ _ _))
      as (_ & _ & H & _).
    apply H. intros k [].
Defined.

(** An edit is applied whether the compilation in it fails or succeeds:
    the document in the result is the edited one, and the prover has been
    run on it. *)
Lemma edit_known_clause_applied_witness :
  (let st1 := fst (Demo.load "[error] unknown tactic" Demo.start
                             Demo.sorry_doc) in
   exists st' r,
     Demo.edit "[error] unknown tactic" st1 (py "sorry_0") (py "trivia")
     = (st', Returned (EditOk r)) /\
     edit_successful r = true /\
     updated_code r = Demo.lines_of ["theorem t : True := by"; "  trivia"] /\
     current_code st' = updated_code r /\
     compilation_id st' = 2 /\
     success (compilation_result r) = false) /\
  (let st1 := fst (Demo.load "Success" Demo.start Demo.sorry_doc) in
   exists st' r,
     Demo.edit "Success" st1 (py "sorry_0") (py "trivial")
     = (st', Returned (EditOk r)) /\
     edit_successful r = true /\
     updated_code r = Demo.lines_of ["theorem t : True := by"; "  trivial"] /\
     success (compilation_result r) = true).
Proof.
  cbv zeta. split.
  - destruct (Claims.edit_known_clause_applied
                unit (Demo.reply "[error] unknown tactic")
                Demo.no_unicode_alnum tt
                Demo.ident Demo.session Demo.instance
                (fst (Demo.load "[error] unknown tactic" Demo.start
                                Demo.sorry_doc))
                (py "sorry_0") (py "trivia")
                (reachable_loaded "[error] unknown tactic" Demo.sorry_doc))
      as (c & i & ln & st' & r & Hc & Hl & Hln & He & Hok & _ & _ & _ & _
          & Hdoc & Hcur & _ & Hid & _ & Hs).
    + vm_compute. now left.
    + exists st', r. split; [exact He|]. split; [exact Hok|].
      vm_compute in Hc. injection Hc as <-.
      simpl line in Hl. assert (Hi : i = 1%nat) by lia. subst i.
      vm_compute in Hln. injection Hln as <-.
      split; [rewrite Hdoc; vm_compute; reflexivity|].
      split; [now symmetry|].
      split; [rewrite Hid; vm_compute; reflexivity|].
      rewrite Hs. unfold Demo.edit in He. vm_compute in He.
      injection He as _ <-. vm_compute. reflexivity.
  - destruct (Claims.edit_known_clause_applied
                unit (Demo.reply "Success") Demo.no_unicode_alnum tt
                Demo.ident Demo.session Demo.instance
                (fst (Demo.load "Success" Demo.start Demo.sorry_doc))
                (py "sorry_0") (py "trivial")
                (reachable_loaded "Success" Demo.sorry_doc))
      as (c & i & ln & st' & r & Hc & Hl & Hln & He & Hok & _ & _ & _ & _
          & Hdoc & _ & _ & _ & _ & Hs).
    + vm_compute. now left.
    + exists st', r. split; [exact He|]. split; [exact Hok|].
      vm_compute in Hc. injection Hc as <-.
      simpl line in Hl. assert (Hi : i = 1%nat) by lia. subst i.
      vm_compute in Hln. injection Hln as <-.
      split; [rewrite Hdoc; vm_compute; reflexivity|].
      rewrite Hs. unfold Demo.edit in He. vm_compute in He.
      injection He as _ <-. vm_compute. reflexivity.
Defined.

End Examples.

(* ===================================================================== *)
(** * Further properties of the session *)
(* ===================================================================== *)

Module Extras.
Import PyStr PyStrFacts Agent ScanSpec EditSpec ScanFacts SessionFacts.
Import EditFacts Queries LineSpec.

Section Session.

Variable Prover : Type.
Variable run_command : Prover -> str -> Prover * CommandResult.
Variable unicode_alnum : char -> bool.
Variable new_prover : Prover.
Variable ident : Z.
Variable fresh_session_id : str.
Variable instance_id : str.

Local Abbreviation compile := (compile_and_analyze run_command unicode_alnum).
Local Abbreviation load :=
  (load_theorem run_command unicode_alnum ident instance_id).
Local Abbreviation edit :=
  (edit_clause run_command unicode_alnum ident instance_id).
Local Abbreviation add_structure :=
  (add_proof_structure run_command unicode_alnum ident instance_id).
Local Abbreviation panel := (get_interactive_panel ident instance_id).
Local Abbreviation identify := (identify_editable_clauses unicode_alnum).
Local Abbreviation unique := (make_thread_unique_code unicode_alnum).
Local Abbreviation reachable :=
  (reachable run_command unicode_alnum new_prover ident fresh_session_id
             instance_id).
Local Abbreviation derived := (derived (Prover := Prover) unicode_alnum).
Local Abbreviation edit_outcome :=
  (edit_outcome run_command unicode_alnum ident instance_id).

(** ** The states of a session, by compilations *)

Lemma edit_state_cases (st : AgentState Prover) (cid new : str) :
  fst (edit st cid new) = st \/
  exists code u, fst (edit st cid new)
                 = fst (compile (set_current_code st code) u).
Proof.
  unfold edit_clause.
  destruct (dict_get cid (editable_clauses st)) as [c|]; [|now left].
  destruct (list_get _ _) as [ln|]; [|now left].
  destruct (list_set _ _ _) as [lines'|]; [|now left].
  right. eexists. eexists.
  match goal with |- context [compile ?a ?b] =>
    destruct (compile a b) as [st2 cr] eqn:E end.
  simpl. rewrite E. reflexivity.
Qed.

Lemma add_state_cases (st : AgentState Prover) (ls : list str) :
  fst (add_structure st ls) = st \/
  exists code u, fst (add_structure st ls)
                 = fst (compile (set_current_code st code) u).
Proof.
  unfold add_proof_structure.
  destruct (filter _ _); [now left|apply edit_state_cases].
Qed.

(** What holds of the initial state and is kept by every compilation holds
    of every state of a session. *)
Lemma reachable_by_compile (P : AgentState Prover -> Prop) :
  P (initial_state new_prover ident fresh_session_id) ->
  (forall st code u, P st -> P (fst (compile (set_current_code st code) u))) ->
  forall st, reachable st -> P st.
Proof.
  intros Hinit Hstep st Hr.
  induction Hr as [|st code _ IH|st cid new _ IH|st ls _ IH|st _ IH].
  - exact Hinit.
  - rewrite load_compile. simpl. now apply Hstep.
  - destruct (edit_state_cases st cid new) as [->|(code & u & ->)];
      [exact IH|now apply Hstep].
  - destruct (add_state_cases st ls) as [->|(code & u & ->)];
      [exact IH|now apply Hstep].
  - exact IH.
Qed.

Lemma reachable_identity (st : AgentState Prover) :
  reachable st -> thread_id st = ident /\ session_id st = fresh_session_id.
Proof.
  revert st.
  apply (reachable_by_compile
           (fun st => thread_id st = ident /\ session_id st = fresh_session_id));
    [now split|].
  intros s code u [Ht Hs].
  destruct (compile_session _ run_command unicode_alnum
                            (set_current_code s code) u) as [Hs' Ht'].
  rewrite Hs', Ht'. now split.
Qed.

(** X1. An edit of a clause of the map returns with [edit_successful]
    true, and it is a load of the edited document, which is the document
    before with the line of the clause rebuilt: the state after the edit is
    the state [load_theorem] gives for that document from the state before,
    and the compilation in its result is the result of that load, which
    adds the thread information. *)
Theorem edit_is_load_of_edited_document
        (st : AgentState Prover) (cid new : str) :
  reachable st ->
  In cid (dict_keys (editable_clauses st)) ->
  exists c i ln st' r,
    dict_get cid (editable_clauses st) = Some c /\
    line (start_pos c) = Z.of_nat i /\
    nth_error (split_on NL (current_code st)) i = Some ln /\
    edit st cid new = (st', Returned (EditOk r)) /\
    edit_successful r = true /\
    updated_code r
    = join [NL] (update_nth (split_on NL (current_code st)) i
                            (edited_line c ln new)) /\
    load st (updated_code r)
    = (st', with_thread_info (compilation_result r)
                             (thread_info_of ident instance_id st)).
Proof.
  intros Hr Hin. destruct (reachable_identity st Hr) as [Htid _].
  apply reachable_derived in Hr.
  destruct (dict_get cid (editable_clauses st)) as [c|] eqn:Hc;
    [|now apply dict_get_keys in Hc].
  destruct (edit_known_derived _ run_command unicode_alnum ident instance_id
              st cid new c Hr Hc) as (i & ln & m & Hl & Hln & _ & He).
  exists c, i, ln. rewrite He. unfold EditSpec.edit_outcome. cbv zeta.
  eexists. eexists.
  split; [reflexivity|]. split; [exact Hl|]. split; [exact Hln|].
  split; [reflexivity|]. split; [reflexivity|]. split; [reflexivity|].
  rewrite load_compile. simpl. now rewrite Htid.
Qed.

(** X2. The identity of a session is fixed: in every state the thread id and
    the session id are those drawn when the state was created, so every
    result of [load_theorem], [edit_clause], [add_proof_structure] and
    [get_interactive_panel] carries the same thread information. *)
Theorem thread_info_is_fixed (st : AgentState Prover) :
  reachable st ->
  let info := {| ti_thread_id := ident;
                 ti_session_id := fresh_session_id;
                 ti_instance_id := instance_id |} in
  thread_id st = ident /\
  session_id st = fresh_session_id /\
  (forall code, cr_thread_info (snd (load st code)) = Some info) /\
  (forall cid new,
      match snd (edit st cid new) with
      | Returned (EditError _ ti) => ti = info
      | Returned (EditOk r) => ea_thread_info r = info
      | Raised _ => False
      end) /\
  (forall ls,
      match snd (add_structure st ls) with
      | Returned (EditError _ ti) => ti = info
      | Returned (EditOk r) => ea_thread_info r = info
      | Raised _ => False
      end) /\
  p_thread_info (snd (panel st)) = info.
Proof.
  intros Hr. destruct (reachable_identity st Hr) as [Ht Hs].
  pose proof (reachable_derived _ run_command unicode_alnum new_prover ident
                                fresh_session_id instance_id st Hr) as Hd.
  cbv zeta.
  assert (Hinfo : thread_info_of ident instance_id st
                  = {| ti_thread_id := ident;
                       ti_session_id := fresh_session_id;
                       ti_instance_id := instance_id |})
    by (unfold thread_info_of; now rewrite Hs).
  assert (Hedit : forall cid new,
             match snd (edit st cid new) with
             | Returned (EditError _ ti) => ti = thread_info_of ident instance_id st
             | Returned (EditOk r) =>
               ea_thread_info r = thread_info_of ident instance_id st
             | Raised _ => False
             end).
  { intros cid new.
    destruct (dict_get cid (editable_clauses st)) as [c|] eqn:Hc.
    - destruct (edit_known_derived _ run_command unicode_alnum ident
                  instance_id st cid new c Hd Hc)
        as (i & ln & m & _ & _ & _ & ->).
      reflexivity.
    - unfold edit_clause. now rewrite Hc. }
  split; [exact Ht|]. split; [exact Hs|].
  split; [|split; [|split]].
  - intros code. rewrite load_compile. simpl. now rewrite Hinfo.
  - intros cid new. rewrite <- Hinfo. apply Hedit.
  - intros ls. rewrite <- Hinfo. unfold add_proof_structure.
    destruct (filter _ _); [reflexivity|apply Hedit].
  - simpl. exact Hinfo.
Qed.

(** ** Messages *)

Lemma tagged_message_shape (sev r : str) :
  tagged_message sev r = [] \/
  exists text, tagged_message sev r = [mk_message sev text].
Proof.
  unfold tagged_message. destruct (contains _ r); [|now left].
  destruct (search_tagged _ r); [right; eauto|now left].
Qed.

(** X3. The messages read from an answer of the prover are at most one of
    severity ['error'], then at most one of severity ['warning'], then at
    most two of severity ['info']; there is always at least one, and each
    has the position line 0, column 0 for its start and its end. *)
Theorem parse_messages_shape (res : CommandResult) :
  exists es ws infos,
    parse_messages res = es ++ ws ++ infos /\
    parse_messages res <> [] /\
    length es <= 1 /\ length ws <= 1 /\ length infos <= 2 /\
    Forall (fun m => severity m = py "error") es /\
    Forall (fun m => severity m = py "warning") ws /\
    Forall (fun m => severity m = py "info") infos /\
    Forall (fun m => msg_start_pos m = origin /\ msg_end_pos m = origin)
           (parse_messages res).
Proof.
  assert (Hlen : forall sev r, length (tagged_message sev r) <= 1).
  { intros sev r. destruct (tagged_message_shape sev r) as [->|[t ->]];
      simpl; lia. }
  assert (Hsev : forall sev r,
             Forall (fun m => severity m = sev) (tagged_message sev r)).
  { intros sev r. destruct (tagged_message_shape sev r) as [->|[t ->]];
      repeat constructor. }
  assert (Horigin : forall sev r,
             Forall (fun m => msg_start_pos m = origin /\
                              msg_end_pos m = origin)
                    (tagged_message sev r)).
  { intros sev r. destruct (tagged_message_shape sev r) as [->|[t ->]];
      repeat constructor. }
  assert (Hone : forall text,
             exists es ws infos,
               [mk_message (py "info") text] = es ++ ws ++ infos /\
               [mk_message (py "info") text] <> [] /\
               length es <= 1 /\ length ws <= 1 /\ length infos <= 2 /\
               Forall (fun m => severity m = py "error") es /\
               Forall (fun m => severity m = py "warning") ws /\
               Forall (fun m => severity m = py "info") infos /\
               Forall (fun m => msg_start_pos m = origin /\
                                msg_end_pos m = origin)
                      [mk_message (py "info") text]).
  { intros text. exists [], [], [mk_message (py "info") text].
    split; [reflexivity|]. split; [discriminate|].
    cbn [length]. repeat split; try lia; repeat constructor. }
  unfold parse_messages.
  destruct (response res) as [r|]; [|apply Hone].
  destruct (nonempty r); cbn [andb]; [|apply Hone].
  set (E := tagged_message (py "error") r).
  set (W := tagged_message (py "warning") r).
  set (I := tagged_message (py "info") r).
  destruct (str_eqb (strip r) (py "Success")).
  - exists E, W, (I ++ [mk_message (py "info") (py "Compilation successful")]).
    split; [now rewrite <- !app_assoc|].
    split.
    { intros H. apply app_eq_nil in H. destruct H as [_ H]. discriminate H. }
    split; [apply Hlen|]. split; [apply Hlen|].
    split.
    { rewrite length_app. cbn [length]. specialize (Hlen (py "info") r).
      fold I in Hlen. lia. }
    split; [apply Hsev|]. split; [apply Hsev|].
    split.
    { apply Forall_app. split; [apply Hsev|repeat constructor]. }
    rewrite !Forall_app. repeat split; try apply Horigin.
    repeat constructor.
  - destruct (E ++ W ++ I) as [|m0 l] eqn:Eq; [apply Hone|].
    rewrite <- Eq. exists E, W, I.
    split; [reflexivity|].
    split; [rewrite Eq; discriminate|].
    split; [apply Hlen|]. split; [apply Hlen|].
    split; [specialize (Hlen (py "info") r); fold I in Hlen; lia|].
    split; [apply Hsev|]. split; [apply Hsev|]. split; [apply Hsev|].
    rewrite !Forall_app. repeat split; apply Horigin.
Qed.

Lemma parse_messages_origin (res : CommandResult) (m : LeanMessage) :
  In m (parse_messages res) ->
  msg_start_pos m = origin /\ msg_end_pos m = origin.
Proof.
  assert (Htag : forall sev r, In m (tagged_message sev r) ->
                 msg_start_pos m = origin /\ msg_end_pos m = origin).
  { intros sev r. destruct (tagged_message_shape sev r) as [->|[t ->]];
      [intros []|intros [<-|[]]; now split]. }
  assert (Hall : forall r,
             In m (tagged_message (py "error") r
                   ++ tagged_message (py "warning") r
                   ++ tagged_message (py "info") r) ->
             msg_start_pos m = origin /\ msg_end_pos m = origin).
  { intros r H. apply in_app_or in H. destruct H as [H|H]; [now apply Htag in H|].
    apply in_app_or in H. destruct H as [H|H]; now apply Htag in H. }
  unfold parse_messages. destruct (response res) as [r|].
  2:{ intros [<-|[]]. now split. }
  destruct (nonempty r).
  - destruct (_ && _).
    + intros H. apply in_app_or in H. destruct H as [H|[<-|[]]];
        [now apply (Hall r)|now split].
    + destruct (_ ++ _) as [|m0 l] eqn:E.
      * intros [<-|[]]. now split.
      * rewrite <- E. apply Hall.
  - simpl. intros [<-|[]]. now split.
Qed.

Lemma reachable_messages_origin (st : AgentState Prover) :
  reachable st ->
  forall m, In m (current_messages st) ->
            msg_start_pos m = origin /\ msg_end_pos m = origin.
Proof.
  revert st.
  apply (reachable_by_compile
           (fun st => forall m, In m (current_messages st) ->
                      msg_start_pos m = origin /\ msg_end_pos m = origin)).
  - intros m [].
  - intros st code u _ m Hm.
    destruct (compile_messages _ run_command unicode_alnum
                               (set_current_code st code) u) as [H _].
    rewrite H in Hm. now apply parse_messages_origin in Hm.
Qed.

(** X4. [has_warnings] of the result of a load is true exactly when the
    text of the prover's answer contains the tag ["[warning]"]. *)
Theorem has_warnings_iff_tag (st : AgentState Prover) (code : str) :
  let answer :=
    snd (run_command (prover st) (unique code ident (session_id st))) in
  has_warnings (snd (load st code)) = true <->
  exists txt, response answer = Some txt /\
              contains (py "[warning]") txt = true.
Proof.
  cbv zeta. rewrite load_compile. simpl.
  unfold compile_and_analyze. simpl prover. simpl current_code.
  destruct (run_command (prover st) (unique code ident (session_id st)))
    as [p res]. simpl.
  unfold has_severity. rewrite existsb_exists.
  unfold parse_messages. destruct (response res) as [r|].
  2:{ split.
      - intros (m & [<-|[]] & H). vm_compute in H. discriminate H.
      - intros (txt & H & _). discriminate H. }
  assert (Hin : forall m,
    In m (tagged_message (py "error") r ++ tagged_message (py "warning") r
          ++ tagged_message (py "info") r) ->
    str_eqb (severity m) (py "warning") = true ->
    contains (py "[warning]") r = true).
  { intros m Hm Hsev. apply str_eqb_eq in Hsev.
    destruct (contains (py "[warning]") r) eqn:E; [reflexivity|].
    rewrite (tagged_message_absent (py "warning") r E) in Hm. simpl in Hm.
    rewrite app_nil_r in Hm || idtac.
    apply in_app_or in Hm.
    destruct Hm as [Hm|Hm]; apply tagged_message_severity in Hm;
      rewrite Hm in Hsev; discriminate Hsev. }
  split.
  - intros (m & Hm & Hsev). exists r. split; [reflexivity|].
    destruct (nonempty r).
    + destruct (_ && _).
      * apply in_app_or in Hm. destruct Hm as [Hm|[<-|[]]];
          [now apply (Hin m)|vm_compute in Hsev; discriminate Hsev].
      * destruct (_ ++ _) as [|m0 l] eqn:El.
        -- destruct Hm as [<-|[]]. vm_compute in Hsev. discriminate Hsev.
        -- now apply (Hin m).
    + simpl in Hm. destruct Hm as [<-|[]]. vm_compute in Hsev.
      discriminate Hsev.
  - clear Hin. intros (txt & [= <-] & Hc).
    destruct (tagged_message_found (py "warning") r Hc) as [text Ht].
    assert (Hne : nonempty r = true)
      by (destruct r; [discriminate Hc|reflexivity]).
    rewrite Hne, Ht.
    exists (mk_message (py "warning") text). split; [|reflexivity].
    destruct (_ && _).
    + apply in_or_app. left. apply in_or_app. right. now left.
    + destruct (tagged_message (py "error") r ++ _) as [|m0 l] eqn:El.
      * apply app_eq_nil in El. destruct El as [_ El]. simpl in El.
        discriminate El.
      * rewrite <- El. apply in_or_app. right. now left.
Qed.

(** X5. The messages of a session are all at line 0: in every state
    [get_messages_at_position] returns all the messages for line 0, with
    any column, and none for any other line. *)
Theorem messages_only_at_line_zero (st : AgentState Prover) (ln col : Z) :
  reachable st ->
  get_messages_at_position st 0 col = current_messages st /\
  (ln <> 0%Z -> get_messages_at_position st ln col = []).
Proof.
  intros Hr. pose proof (reachable_messages_origin st Hr) as Ho.
  unfold get_messages_at_position.
  induction (current_messages st) as [|m l IH]; [now split|].
  destruct (Ho m (or_introl eq_refl)) as [Hs He].
  destruct IH as [IH0 IHn]; [intros m' Hm'; apply Ho; now right|].
  simpl. rewrite Hs, He. simpl. split.
  - now rewrite IH0.
  - intros Hne. destruct (0 <=? ln)%Z eqn:E1; destruct (ln <=? 0)%Z eqn:E2;
      simpl; try (now apply IHn).
    apply Z.leb_le in E1, E2. lia.
Qed.

(** X6. The panel prints every message with the line number 1, whatever the
    prover said about its place. *)
Theorem panel_messages_at_line_one (st : AgentState Prover) :
  reachable st ->
  p_messages (snd (panel st))
  = map (fun m => py "[" ++ severity m ++ py "] " ++ message m
                  ++ py " at line 1")
        (current_messages st).
Proof.
  intros Hr. pose proof (reachable_messages_origin st Hr) as Ho. simpl.
  apply map_ext_in. intros m Hm. destruct (Ho m Hm) as [Hs _].
  unfold message_str. now rewrite Hs.
Qed.

(** ** Goals *)

Lemma sorry_goals_in (lines : list str) (i0 : nat) (ps : option Z)
      (g : ProofGoal) :
  In g (sorry_goals i0 lines ps) ->
  exists j ln, nth_error lines j = Some ln /\
               contains (py "sorry") ln = true /\
               g = sorry_goal (i0 + j) ln ps.
Proof.
  revert i0. induction lines as [|ln rest IH]; intros i0 H; [destruct H|].
  simpl in H. apply in_app_or in H. destruct H as [H|H].
  - destruct (contains (py "sorry") ln) eqn:E; [|destruct H].
    destruct H as [<-|[]]. exists 0, ln. rewrite Nat.add_0_r.
    now repeat split.
  - destruct (IH _ H) as (j & l & Hj & Hc & ->).
    exists (S j), l. replace (i0 + S j) with (S i0 + j) by lia.
    now repeat split.
Qed.

Lemma sorry_goals_find (lines : list str) (i0 j : nat) (ps : option Z) :
  List.find (fun g => (line (position g) =? Z.of_nat (i0 + j))%Z)
            (sorry_goals i0 lines ps)
  = match nth_error lines j with
    | Some ln => if contains (py "sorry") ln
                 then Some (sorry_goal (i0 + j) ln ps) else None
    | None => None
    end.
Proof.
  assert (Hbelow : forall ls k t, t < k ->
             List.find (fun g => (line (position g) =? Z.of_nat t)%Z)
                       (sorry_goals k ls ps) = None).
  { intros ls k t Ht.
    destruct (List.find _ (sorry_goals k ls ps)) as [g|] eqn:E; [|reflexivity].
    apply find_some in E. destruct E as [Hin Hg].
    apply sorry_goals_in in Hin. destruct Hin as (j' & l & _ & _ & ->).
    simpl in Hg. apply Z.eqb_eq in Hg. lia. }
  revert i0 j. induction lines as [|ln rest IH]; intros i0 j.
  - now destruct j.
  - cbn [sorry_goals]. destruct j as [|j].
    + rewrite Nat.add_0_r. cbn [nth_error].
      destruct (contains (py "sorry") ln).
      * cbn [app List.find position line]. now rewrite Z.eqb_refl.
      * cbn [app]. apply Hbelow. lia.
    + cbn [nth_error]. replace (i0 + S j) with (S i0 + j) by lia.
      rewrite <- IH.
      destruct (contains (py "sorry") ln); cbn [app List.find position line];
        [|reflexivity].
      replace (Z.of_nat i0 =? Z.of_nat (S i0 + j))%Z with false
        by (symmetry; apply Z.eqb_neq; lia).
      reflexivity.
Qed.

Lemma reachable_goals (st : AgentState Prover) :
  reachable st -> goals_of_document st.
Proof.
  revert st. apply (reachable_by_compile (@goals_of_document Prover)).
  - now left.
  - intros st code u _. unfold goals_of_document.
    destruct (compile_goals _ run_command unicode_alnum
                            (set_current_code st code) u) as [H _].
    rewrite H, compile_code. unfold parse_goals.
    destruct (response _) as [r|]; [|now left].
    destruct (nonempty r); [right; eauto|now left].
Qed.

(** X7. Every goal of a session points at a placeholder of the current
    document: it is on a line of the document that holds [sorry], its column
    is that of the first [sorry] of the line, and its text names the line,
    counted from 1. *)
Theorem goals_point_at_placeholders (st : AgentState Prover) (g : ProofGoal) :
  reachable st ->
  In g (current_goals st) ->
  exists i ln p,
    nth_error (split_on NL (current_code st)) i = Some ln /\
    index_of (py "sorry") ln = Some p /\
    p + 5 <= length ln /\
    position g = {| line := Z.of_nat i; column := Z.of_nat p |} /\
    goal_text g = py "Goal at sorry on line " ++ str_of_nat (i + 1).
Proof.
  intros Hr Hg. destruct (reachable_goals st Hr) as [E|[ps E]];
    rewrite E in Hg; [destruct Hg|].
  apply sorry_goals_in in Hg. destruct Hg as (j & ln & Hj & Hc & ->).
  apply contains_index_of in Hc. destruct Hc as [p Hp].
  exists j, ln, p. split; [exact Hj|]. split; [exact Hp|].
  split; [exact (index_of_bound _ _ _ Hp)|].
  unfold sorry_goal. simpl. now rewrite (find_index_of _ _ _ Hp).
Qed.

(** X8. After a load whose answer has a text, [get_goal_at_position] on a
    line of the document gives the goal of that line when the line holds
    [sorry] and nothing when it does not, whatever the column; outside the
    document it gives nothing. After a load whose answer has no text there
    are no goals at all. *)
Theorem goal_at_position_after_load
        (st : AgentState Prover) (code : str) (col : Z) :
  let answer :=
    snd (run_command (prover st) (unique code ident (session_id st))) in
  let st' := fst (load st code) in
  (has_text answer = true ->
   (forall i ln,
       nth_error (split_on NL code) i = Some ln ->
       get_goal_at_position st' (Z.of_nat i) col
       = if contains (py "sorry") ln
         then Some (sorry_goal i ln (proof_state answer)) else None) /\
   (forall z,
       (z < 0 \/ Z.of_nat (length (split_on NL code)) <= z)%Z ->
       get_goal_at_position st' z col = None)) /\
  (has_text answer = false ->
   current_goals st' = [] /\
   forall z, get_goal_at_position st' z col = None).
Proof.
  cbv zeta.
  assert (Hg : current_goals (fst (load st code))
               = parse_goals code
                   (snd (run_command (prover st)
                           (unique code ident (session_id st))))).
  { rewrite load_compile. simpl.
    destruct (compile_goals _ run_command unicode_alnum
                (set_current_code st code)
                (unique code ident (session_id st))) as [H _].
    exact H. }
  unfold get_goal_at_position. rewrite Hg. unfold parse_goals, has_text.
  destruct (response _) as [r|]; [destruct (nonempty r)|]; split;
    try discriminate; try (intros _; now split).
  intros _. split.
  - intros i ln Hln.
    rewrite (sorry_goals_find (split_on NL code) 0 i). now rewrite Hln.
  - intros z Hz.
    destruct (List.find _ _) as [g|] eqn:E; [|reflexivity].
    apply find_some in E. destruct E as [Hin Hline].
    apply sorry_goals_in in Hin. destruct Hin as (j & l & Hj & _ & ->).
    simpl in Hline. apply Z.eqb_eq in Hline.
    assert (j < length (split_on NL code))
      by (apply nth_error_Some; congruence).
    lia.
Qed.

(** X9. After a load whose answer has a text, every clause of category
    ['sorry'] has a goal at its place: [get_goal_at_position] at the start
    of the clause gives a goal whose position is that start. *)
Theorem sorry_clause_has_goal
        (st : AgentState Prover) (code cid : str) (c : EditableClause) :
  let answer :=
    snd (run_command (prover st) (unique code ident (session_id st))) in
  let st' := fst (load st code) in
  has_text answer = true ->
  dict_get cid (editable_clauses st') = Some c ->
  clause_type c = py "sorry" ->
  exists g,
    get_goal_at_position st' (line (start_pos c)) (column (start_pos c))
    = Some g /\
    position g = start_pos c /\
    proof_state_id g = proof_state answer.
Proof.
  cbv zeta. intros Htext Hc Hty.
  destruct (derived_clause_line _ unicode_alnum _ _ _
              (load_derived _ run_command unicode_alnum ident instance_id
                            st code) Hc)
    as (_ & i & ln & m & Hl & Hln & Hcl).
  rewrite load_code in Hln.
  assert (Hg : current_goals (fst (load st code))
               = sorry_goals 0 (split_on NL code)
                   (proof_state
                      (snd (run_command (prover st)
                              (unique code ident (session_id st)))))).
  { rewrite load_compile. simpl.
    destruct (compile_goals _ run_command unicode_alnum
                (set_current_code st code)
                (unique code ident (session_id st))) as [H _].
    rewrite H. unfold parse_goals. unfold has_text in Htext.
    destruct (response _) as [r|]; [now rewrite Htext|discriminate Htext]. }
  unfold get_goal_at_position. rewrite Hg, Hl.
  rewrite (sorry_goals_find (split_on NL code) 0 i), Hln.
  inversion Hcl as [p Hp E|m' Hm E|Hs E|Hb E|E|E];
    rewrite <- E in Hty; simpl in Hty; try discriminate Hty.
  rewrite (contains_strip _ _ Hs). eexists. split; [reflexivity|].
  split; reflexivity.
Qed.

(** ** Suggestions *)

Lemma is_nil_filter {A} (f : A -> bool) (l : list A) :
  is_nil (filter f l) = negb (existsb f l).
Proof.
  induction l as [|x l IH]; [reflexivity|].
  simpl. now destruct (f x).
Qed.

Lemma sorry_keys_none (d : dict) :
  is_nil (map fst (filter (fun kc => str_eqb (clause_type (snd kc))
                                             (py "sorry")) d)) = true <->
  forall k c, In (k, c) d -> clause_type c <> py "sorry".
Proof.
  induction d as [|[k0 c0] d IH]; simpl.
  - split; [intros _ k c []|reflexivity].
  - destruct (str_eqb (clause_type c0) (py "sorry")) eqn:E; simpl.
    + apply str_eqb_eq in E. split; [discriminate|].
      intros H. exfalso. now apply (H k0 c0 (or_introl eq_refl)).
    + apply str_eqb_neq in E. rewrite IH. split.
      * intros H k c [[= <- <-]|Hin]; [exact E|now apply (H k c)].
      * intros H k c Hin. apply (H k c). now right.
Qed.

Lemma suggestion_heads (x : str) :
  hd_error (py "Fix compilation errors first") = Some 70%N /\
  hd_error (py "Work on sorry clauses: " ++ x) = Some 87%N /\
  hd_error (py "Address compiler warnings") = Some 65%N /\
  hd_error (py "Proof looks complete!") = Some 80%N.
Proof. repeat split. Qed.

Ltac by_heads :=
  repeat match goal with
         | H : _ \/ _ |- _ => destruct H as [H|H]
         | H : False |- _ => destruct H
         | H : @In str _ [] |- _ => destruct H
         | H : @eq str _ _ |- _ =>
           apply (f_equal (@hd_error _)) in H; congruence
         | H : Some _ = Some _ |- _ =>
           injection H as H
         end.

(** X10. [suggest_next_actions] always suggests something. It says that the
    proof looks complete exactly when no message is an error or a warning
    and no clause has the category ['sorry']; it puts the advice to fix the
    errors first, and gives it exactly when a message is an error, which
    after a load is exactly when the load did not succeed. *)
Theorem suggestions_shape (st : AgentState Prover) :
  suggest_next_actions st <> [] /\
  (In (py "Proof looks complete!") (suggest_next_actions st) <->
   has_severity (py "error") (current_messages st) = false /\
   has_severity (py "warning") (current_messages st) = false /\
   (forall k c, In (k, c) (editable_clauses st) ->
                clause_type c <> py "sorry")) /\
  (has_severity (py "error") (current_messages st) = true <->
   hd_error (suggest_next_actions st)
   = Some (py "Fix compilation errors first")) /\
  (forall code,
      success (snd (load st code)) = false <->
      hd_error (suggest_next_actions (fst (load st code)))
      = Some (py "Fix compilation errors first")).
Proof.
  assert (Hshape : forall s : AgentState Prover,
             suggest_next_actions s <> [] /\
             (In (py "Proof looks complete!") (suggest_next_actions s) <->
              has_severity (py "error") (current_messages s) = false /\
              has_severity (py "warning") (current_messages s) = false /\
              (forall k c, In (k, c) (editable_clauses s) ->
                           clause_type c <> py "sorry")) /\
             (has_severity (py "error") (current_messages s) = true <->
              hd_error (suggest_next_actions s)
              = Some (py "Fix compilation errors first"))).
  { intros s. rewrite <- sorry_keys_none.
    unfold suggest_next_actions, has_severity. rewrite !is_nil_filter.
    destruct (suggestion_heads
                (join (py ", ")
                   (map fst
                      (filter (fun kc => str_eqb (clause_type (snd kc))
                                                 (py "sorry"))
                              (editable_clauses s)))))
      as (HA & HB & HC & HD).
    set (A := py "Fix compilation errors first") in *.
    set (B := py "Work on sorry clauses: " ++ _) in *.
    set (C := py "Address compiler warnings") in *.
    set (D := py "Proof looks complete!") in *.
    clearbody A B C D.
    set (e := existsb (fun m => str_eqb (severity m) (py "error")) _).
    set (w := existsb (fun m => str_eqb (severity m) (py "warning")) _).
    set (sk := is_nil (map fst _)).
    clearbody e w sk.
    destruct e, sk, w; cbn [negb app is_nil hd_error In];
      (split; [discriminate|]);
      (split; split; intros H; try reflexivity; try discriminate H;
       try (destruct H as (H1 & H2 & H3);
            first [discriminate H1|discriminate H2|discriminate H3]);
       try (now left); try (repeat split; reflexivity);
       by_heads). }
  destruct (Hshape st) as (H1 & H2 & H3).
  split; [exact H1|]. split; [exact H2|]. split; [exact H3|].
  intros code.
  destruct (Hshape (fst (load st code))) as (_ & _ & <-).
  rewrite load_compile. simpl. rewrite compile_success.
  destruct (compile_messages _ run_command unicode_alnum
              (set_current_code st code)
              (unique code ident (session_id st))) as [_ ->].
  apply negb_false_iff.
Qed.

(** ** Documents without a line that opens the proof *)

Lemma scan_line_closed (i : nat) (ln : str) (sc : ScanState) :
  sc_started sc = false -> opens_proof ln = false ->
  scan_line unicode_alnum i ln sc = sc.
Proof.
  intros Hs Ho. unfold scan_line. unfold opens_proof, contains in Ho.
  destruct (_ || _); [reflexivity|].
  destruct (startswith (py "theorem") (strip ln)).
  - destruct (index_of (py ":= by") (strip ln)); [discriminate Ho|reflexivity].
  - now rewrite Hs.
Qed.

Lemma scan_from_closed (i : nat) (lines : list str) (sc : ScanState) :
  sc_started sc = false ->
  (forall ln, In ln lines -> opens_proof ln = false) ->
  scan_from unicode_alnum i lines sc = sc.
Proof.
  revert i. induction lines as [|ln rest IH]; intros i Hs Hall; [reflexivity|].
  simpl. rewrite scan_line_closed; [|exact Hs|apply Hall; now left].
  apply IH; [exact Hs|]. intros l Hl. apply Hall. now right.
Qed.

(** X11. A document none of whose lines opens the proof (starts with
    [theorem] and holds [:= by]) has no editable clause: after it is loaded
    the clause map is empty, every edit answers that the clause is not
    found and [add_proof_structure] finds no clause to add to, and both
    leave the session as it is. *)
Theorem no_opening_line_no_clauses (st : AgentState Prover) (code : str) :
  (forall ln, In ln (split_on NL code) -> opens_proof ln = false) ->
  let st' := fst (load st code) in
  editable_clauses st' = [] /\
  (forall cid new,
      edit st' cid new
      = (st', Returned (EditError (py "Clause '" ++ cid ++ py "' not found")
                                  (thread_info_of ident instance_id st')))) /\
  (forall ls,
      add_structure st' ls
      = (st', Returned (EditError
                          (py "No main proof clause found to add structure to")
                          (thread_info_of ident instance_id st')))).
Proof.
  intros Hall. cbv zeta.
  assert (He : editable_clauses (fst (load st code)) = []).
  { rewrite load_clauses. unfold identify_editable_clauses.
    now rewrite scan_from_closed. }
  split; [exact He|]. split.
  - intros cid new. unfold edit_clause. now rewrite He.
  - intros ls. unfold add_proof_structure. now rewrite He.
Qed.

(** ** Where the clauses are *)

Lemma categories_in (s : string) :
  In s ["main_proof"; "have"; "sorry"; "tactic_block"; "tactic";
        "proof_line"]%string ->
  In (py s) categories.
Proof. intros H. unfold categories. now apply in_map. Qed.

(** The case of the loop body that records a clause of category [s] after
    the proof is open. *)
Ltac recorded s :=
  right; right; eexists; split; [reflexivity|];
  split; [|split; [|split; [|right; split; reflexivity]]];
  [ match goal with H : forall s, _ -> In (py s) categories |- _ =>
      apply (H s); simpl; tauto end
  | reflexivity | reflexivity ].

(** The loop body leaves the state, or notes that the proof is open, or
    records a clause of a scanned line, on a line that opens the proof or
    after one. *)
Lemma scan_line_placed (i : nat) (ln : str) (sc : ScanState) :
  scan_line unicode_alnum i ln sc = sc \/
  (opens_proof ln = true /\ scan_line unicode_alnum i ln sc = set_started sc) \/
  exists c,
    scanned_line ln = true /\
    In (clause_type c) categories /\
    line (start_pos c) = Z.of_nat i /\
    line (end_pos c) = Z.of_nat i /\
    ((opens_proof ln = true /\
      scan_line unicode_alnum i ln sc = set_started (add_clause sc c)) \/
     (sc_started sc = true /\
      scan_line unicode_alnum i ln sc = add_clause sc c)).
Proof.
  unfold scan_line, scanned_line, opens_proof, contains.
  assert (Hcat : forall s, In s ["main_proof"; "have"; "sorry"; "tactic_block";
                                 "tactic"; "proof_line"]%string ->
                 In (py s) categories) by apply categories_in.
  destruct (nonempty (strip ln)) eqn:Hne; [|now left].
  destruct (startswith (py "--") (strip ln)) eqn:Hcm; [now left|].
  cbn [negb orb andb].
  destruct (startswith (py "theorem") (strip ln)) eqn:Hth.
  { destruct (index_of (py ":= by") (strip ln)) as [p|]; [|now left].
    destruct (nonempty (strip (skipn (p + 5) (strip ln)))).
    - right. right. eexists.
      split; [reflexivity|]. split; [|split; [|split]].
      4:{ left. split; reflexivity. }
      + apply (categories_in "main_proof"). simpl. tauto.
      + reflexivity.
      + reflexivity.
    - right. left. now split. }
  destruct (sc_started sc) eqn:Hst; [|now left].
  destruct (startswith (py "have ") (strip ln)).
  { destruct (match_have unicode_alnum (strip ln)) as [m|]; [|now left].
    recorded "have"%string. }
  destruct (match index_of (py "sorry") (strip ln) with
            | Some _ => true | None => false end).
  { recorded "sorry"%string. }
  destruct (startswith (py "by ") (strip ln)).
  { recorded "tactic_block"%string. }
  destruct (existsb _ tactic_prefixes).
  { recorded "tactic"%string. }
  recorded "proof_line"%string.
Qed.

Lemma dict_set_lines_nodup (k : str) (v : EditableClause) (d : dict)
      (idx : Z) :
  NoDup (map (fun kc => line (start_pos (snd kc))) d) ->
  (forall k' c', In (k', c') d -> (line (start_pos c') < idx)%Z) ->
  line (start_pos v) = idx ->
  NoDup (map (fun kc => line (start_pos (snd kc))) (dict_set k v d)).
Proof.
  intros Hnd Hlt Hv. induction d as [|[k0 c0] d IH]; simpl.
  - repeat constructor. intros [].
  - simpl in Hnd. inversion Hnd as [|? ? Hnot Hnd']; subst.
    assert (Hfresh : ~ In (line (start_pos v))
                          (map (fun kc => line (start_pos (snd kc))) d)).
    { intros Hin. apply in_map_iff in Hin. destruct Hin as ([k' c'] & E & Hin).
      simpl in E. specialize (Hlt k' c' (or_intror Hin)). lia. }
    destruct (str_eqb k k0); simpl.
    + constructor; assumption.
    + constructor.
      * intros Hin.
        assert (Hsub : forall z,
                   In z (map (fun kc => line (start_pos (snd kc)))
                             (dict_set k v d)) ->
                   z = line (start_pos v) \/
                   In z (map (fun kc => line (start_pos (snd kc))) d)).
        { intros z Hz. apply in_map_iff in Hz.
          destruct Hz as ([k' c'] & <- & Hz). apply dict_set_In in Hz.
          destruct Hz as [[_ ->]|Hz]; [now left|right].
          apply in_map_iff. now exists (k', c'). }
        destruct (Hsub _ Hin) as [E|Hin']; [|contradiction].
        specialize (Hlt k0 c0 (or_introl eq_refl)). lia.
      * apply IH; [assumption|]. intros k' c' Hin'. apply (Hlt k' c').
        now right.
Qed.

Lemma scan_line_placed_inv (lines : list str) (idx : nat) (ln : str)
      (sc : ScanState) :
  placed_inv lines idx sc -> nth_error lines idx = Some ln ->
  placed_inv lines (S idx) (scan_line unicode_alnum idx ln sc).
Proof.
  intros Hinv Hln.
  assert (Hkeep : placed_inv lines (S idx) sc).
  { constructor.
    - intros k c Hin. destruct (pl_entries Hinv _ _ Hin) as [Hp Hlt].
      split; [exact Hp|lia].
    - intros Hs. destruct (pl_started Hinv Hs) as (j & lj & Hj & Hlj & Ho).
      exists j, lj. repeat split; auto.
    - exact (pl_not_started Hinv).
    - exact (pl_lines Hinv). }
  assert (Hopen : opens_proof ln = true ->
                  exists j lj, j < S idx /\ nth_error lines j = Some lj /\
                               opens_proof lj = true)
    by (intros Ho; exists idx, ln; repeat split; auto).
  assert (Hadd : forall c started,
             scanned_line ln = true -> In (clause_type c) categories ->
             line (start_pos c) = Z.of_nat idx ->
             line (end_pos c) = Z.of_nat idx ->
             (exists j lj, j <= idx /\ nth_error lines j = Some lj /\
                           opens_proof lj = true) ->
             (started = true ->
              exists j lj, j < S idx /\ nth_error lines j = Some lj /\
                           opens_proof lj = true) ->
             (started = false -> False) ->
             placed_inv lines (S idx)
               {| sc_clauses := dict_set (clause_id c) c (sc_clauses sc);
                  sc_clause_id := S (sc_clause_id sc);
                  sc_started := started |}).
  { intros c started Hsc Hcat Hl Hle Hopen' Hst Hnst. constructor; simpl.
    - intros k c' Hin. apply dict_set_In in Hin.
      destruct Hin as [[_ ->]|Hin].
      + split; [|lia]. exists idx, ln. repeat split; auto.
      + destruct (pl_entries Hinv _ _ Hin) as [Hp Hlt]. split; [exact Hp|lia].
    - exact Hst.
    - intros E. destruct (Hnst E).
    - apply (dict_set_lines_nodup _ _ _ (Z.of_nat idx));
        [exact (pl_lines Hinv)| |exact Hl].
      intros k' c' Hin. now destruct (pl_entries Hinv _ _ Hin). }
  destruct (scan_line_placed idx ln sc)
    as [->|[[Ho ->]|(c & Hsc & Hcat & Hl & Hle & [[Ho ->]|[Hs ->]])]].
  - exact Hkeep.
  - constructor; simpl.
    + exact (pl_entries Hkeep).
    + intros _. now apply Hopen.
    + discriminate.
    + exact (pl_lines Hinv).
  - apply Hadd; auto; [|discriminate].
    exists idx, ln. repeat split; auto.
  - unfold add_clause. rewrite Hs. apply Hadd; auto; [| |discriminate].
    + destruct (pl_started Hinv Hs) as (j & lj & Hj & Hlj & Hoj).
      exists j, lj. repeat split; auto; lia.
    + intros _. destruct (pl_started Hinv Hs) as (j & lj & Hj & Hlj & Hoj).
      exists j, lj. repeat split; auto.
Qed.

Lemma scan_from_placed_inv (lines rest : list str) (i : nat)
      (sc : ScanState) :
  (forall j l, nth_error rest j = Some l -> nth_error lines (i + j) = Some l) ->
  placed_inv lines i sc ->
  placed_inv lines (i + length rest) (scan_from unicode_alnum i rest sc).
Proof.
  revert i sc. induction rest as [|ln rest IH]; intros i sc Hsub Hinv; simpl.
  - now rewrite Nat.add_0_r.
  - replace (i + S (length rest)) with (S i + length rest) by lia.
    apply IH.
    + intros j l Hj. replace (S i + j) with (i + S j) by lia.
      now apply Hsub.
    + apply scan_line_placed_inv; [exact Hinv|].
      rewrite <- (Nat.add_0_r i). now apply Hsub.
Qed.

Lemma identify_placed_inv (code : str) :
  placed_inv (split_on NL code) (length (split_on NL code))
             (scan_from unicode_alnum 0 (split_on NL code) scan_start).
Proof.
  apply (scan_from_placed_inv (split_on NL code) (split_on NL code) 0);
    [auto|].
  constructor; simpl.
  - intros k c [].
  - discriminate.
  - reflexivity.
  - constructor.
Qed.

(** X12. Every clause of the map of a session is on a line of the current
    document that is neither blank nor a comment, no earlier than a line
    that opens the proof (starts with [theorem] and holds [:= by]); its
    span starts and ends on that line, its key is its [clause_id], and its
    category is one of the six that [edit_clause] has a rule for. *)
Theorem clauses_are_placed
        (st : AgentState Prover) (cid : str) (c : EditableClause) :
  reachable st ->
  dict_get cid (editable_clauses st) = Some c ->
  cid = clause_id c /\
  In (clause_type c)
     (map py ["main_proof"; "have"; "sorry"; "tactic_block"; "tactic";
              "proof_line"]%string) /\
  exists i ln,
    line (start_pos c) = Z.of_nat i /\
    line (end_pos c) = Z.of_nat i /\
    nth_error (split_on NL (current_code st)) i = Some ln /\
    nonempty (strip ln) = true /\
    startswith (py "--") (strip ln) = false /\
    exists j lj,
      j <= i /\ nth_error (split_on NL (current_code st)) j = Some lj /\
      startswith (py "theorem") (strip lj) = true /\
      contains (py ":= by") (strip lj) = true.
Proof.
  intros Hr Hc. apply reachable_derived in Hr.
  destruct (derived_clause_line _ unicode_alnum _ _ _ Hr Hc) as [Hid _].
  split; [exact Hid|].
  rewrite Hr in Hc. apply dict_get_In in Hc.
  destruct (pl_entries (identify_placed_inv (current_code st)) _ _ Hc)
    as [(i & ln & Hl & Hle & Hln & Hsc & Hcat & j & lj & Hj & Hlj & Ho) _].
  split; [exact Hcat|].
  exists i, ln. unfold scanned_line in Hsc. apply andb_prop in Hsc.
  destruct Hsc as [Hne Hcm]. apply negb_true_iff in Hcm.
  repeat split; try assumption.
  exists j, lj. unfold opens_proof in Ho. apply andb_prop in Ho.
  destruct Ho as [Ho1 Ho2]. now repeat split.
Qed.

(** X13. A line of the document has at most one clause: two keys of the map
    whose clauses start on the same line are the same key; so the map has
    no more clauses than the document has lines. *)
Theorem one_clause_per_line
        (st : AgentState Prover) (k1 k2 : str) (c1 c2 : EditableClause) :
  reachable st ->
  dict_get k1 (editable_clauses st) = Some c1 ->
  dict_get k2 (editable_clauses st) = Some c2 ->
  line (start_pos c1) = line (start_pos c2) ->
  k1 = k2 /\ c1 = c2 /\
  length (editable_clauses st) <= length (split_on NL (current_code st)).
Proof.
  intros Hr H1 H2 Hline. apply reachable_derived in Hr.
  rewrite Hr in *. apply dict_get_In in H1, H2.
  pose proof (identify_placed_inv (current_code st)) as Hinv.
  pose proof (pl_lines Hinv) as Hnd.
  fold (identify_editable_clauses unicode_alnum (current_code st)) in Hnd.
  assert (Hinj : forall (l : dict) x y,
             NoDup (map (fun kc => line (start_pos (snd kc))) l) ->
             In x l -> In y l ->
             line (start_pos (snd x)) = line (start_pos (snd y)) -> x = y).
  { induction l as [|a l IH]; intros x y Hn Hx Hy E; [destruct Hx|].
    simpl in Hn. inversion Hn as [|? ? Hnot Hn']; subst.
    destruct Hx as [->|Hx]; destruct Hy as [->|Hy]; try reflexivity.
    - exfalso. apply Hnot. rewrite E.
      exact (in_map (fun kc => line (start_pos (snd kc))) l y Hy).
    - exfalso. apply Hnot. rewrite <- E.
      exact (in_map (fun kc => line (start_pos (snd kc))) l x Hx).
    - now apply IH. }
  pose proof (Hinj _ _ _ Hnd H1 H2 Hline) as E. injection E as -> ->.
  split; [reflexivity|]. split; [reflexivity|].
  rewrite <- (length_map (fun kc => line (start_pos (snd kc)))).
  assert (Hle : length (map (fun kc => line (start_pos (snd kc)))
                            (identify (current_code st)))
                <= length (map Z.of_nat
                             (seq 0 (length (split_on NL (current_code st))))));
    [|now rewrite (length_map Z.of_nat), length_seq in Hle].
  apply NoDup_incl_length; [exact Hnd|].
  intros z Hz. apply in_map_iff in Hz. destruct Hz as ([k' c'] & <- & Hin).
  destruct (pl_entries Hinv _ _ Hin)
    as [(i & ln & Hl & _ & Hln & _) _].
  simpl. rewrite Hl. apply in_map, in_seq.
  assert (i < length (split_on NL (current_code st)))
    by (apply nth_error_Some; congruence).
  lia.
Qed.

(** ** The rules of [edit_clause] for the main proof and a tactic block *)

Lemma lstrip_prefix_space (s : str) :
  Forall (fun c => isspace c = true)
         (firstn (length s - length (lstrip s)) s).
Proof.
  induction s as [|c s IH]; [constructor|].
  cbn [lstrip]. destruct (isspace c) eqn:E.
  - pose proof (lstrip_length s).
    replace (length (c :: s) - length (lstrip s))
      with (S (length s - length (lstrip s)))
      by (change (length (c :: s)) with (S (length s)); lia).
    cbn [firstn]. now constructor.
  - rewrite Nat.sub_diag. constructor.
Qed.

Lemma strip_part_indent (s : str) :
  exists b, s = firstn (length s - length (lstrip s)) s ++ strip s ++ b.
Proof.
  unfold strip. destruct (rstrip_prefix (lstrip s)) as [b Hb].
  exists b. rewrite <- Hb. apply lstrip_suffix.
Qed.

Lemma index_of_after_space (sub a r : str) (c0 : char) (sub' : str)
      (q : nat) :
  Forall (fun c => isspace c = true) a ->
  sub = c0 :: sub' -> isspace c0 = false ->
  index_of sub (a ++ r) = Some q -> length a <= q.
Proof.
  intros Ha -> Hc0. revert q.
  induction Ha as [|x a Hx Ha IH]; intros q H; [simpl; lia|].
  cbn [app index_of startswith] in H.
  destruct (c0 =? x)%N eqn:E.
  - apply N.eqb_eq in E. subst x. congruence.
  - cbn [andb] in H.
    destruct (index_of (c0 :: sub') (a ++ r)) as [q'|]; [|discriminate H].
    injection H as <-. specialize (IH q' eq_refl). simpl. lia.
Qed.


(** ** The renaming of theorems *)

Lemma sub_theorem_go_skip (suffix : str) (k : nat) (s : str) :
  sub_theorem_go unicode_alnum suffix k s
  = sub_theorem_go unicode_alnum suffix 0 (skipn k s).
Proof.
  revert k. induction s as [|c s IH]; intros [|k]; simpl; try reflexivity.
  rewrite IH. now destruct k.
Qed.

Lemma theorem_here_none (s : str) :
  startswith (py "theorem") s = false -> theorem_here unicode_alnum s = None.
Proof. intros H. unfold theorem_here. now rewrite H. Qed.

Lemma sub_theorem_go_none (suffix s : str) :
  index_of (py "theorem") s = None ->
  sub_theorem_go unicode_alnum suffix 0 s = s.
Proof.
  induction s as [|c s IH]; intros H; [reflexivity|].
  cbn [index_of] in H.
  destruct (startswith (py "theorem") (c :: s)) eqn:E; [discriminate H|].
  cbn [sub_theorem_go]. rewrite (theorem_here_none _ E). f_equal.
  apply IH. now destruct (index_of (py "theorem") s).
Qed.

Lemma is_word_not_space (c : char) :
  is_word unicode_alnum c = true -> isspace c = false.
Proof.
  unfold is_word. destruct (c <? 128)%N eqn:E.
  - intros H. destruct (isspace c) eqn:Hs; [exfalso|reflexivity].
    unfold isspace in Hs. apply N.ltb_lt in E.
    repeat first [ rewrite orb_true_iff in H | rewrite andb_true_iff in H
                 | rewrite N.leb_le in H | rewrite N.eqb_eq in H ].
    repeat first [ rewrite orb_true_iff in Hs | rewrite andb_true_iff in Hs
                 | rewrite N.leb_le in Hs | rewrite N.eqb_eq in Hs ].
    lia.
  - intros H. apply andb_prop in H. destruct H as [H _].
    now apply negb_true_iff in H.
Qed.

Lemma take_drop_while_app (p : char -> bool) (a rest : str) :
  Forall (fun c => p c = true) a ->
  match rest with [] => True | c :: _ => p c = false end ->
  take_while p (a ++ rest) = a /\ drop_while p (a ++ rest) = rest.
Proof.
  intros Ha Hrest. induction Ha as [|x a Hx Ha IH].
  - destruct rest as [|c rest]; [now split|]. simpl. now rewrite Hrest.
  - simpl. rewrite Hx. destruct IH as [-> ->]. now split.
Qed.

(** X15. [_make_thread_unique_code] returns a text without the word
    [theorem] as it is. In a text that starts with [theorem], white space
    and a name, and has no [theorem] after the name, it puts one blank
    before the name and the suffix [_t<thread id modulo 10000>_s<session
    id>] after it, and keeps the rest. *)
Theorem unique_code_renames_theorem
        (tid : Z) (sid code ws name rest : str) :
  (index_of (py "theorem") code = None -> unique code tid sid = code) /\
  (ws <> [] -> Forall (fun c => isspace c = true) ws ->
   name <> [] -> Forall (fun c => is_word unicode_alnum c = true) name ->
   match rest with
   | [] => True
   | c :: _ => is_word unicode_alnum c = false
   end ->
   index_of (py "theorem") rest = None ->
   unique (py "theorem" ++ ws ++ name ++ rest) tid sid
   = py "theorem " ++ name ++ py "_t" ++ str_of_Z (tid mod 10000)
     ++ py "_s" ++ sid ++ rest).
Proof.
  split.
  - intros H. unfold make_thread_unique_code, sub_theorem.
    now apply sub_theorem_go_none.
  - intros Hws Hspace Hname Hword Hrest Hnone.
    unfold make_thread_unique_code, sub_theorem.
    set (suffix := py "_t" ++ str_of_Z (tid mod 10000) ++ py "_s" ++ sid).
    assert (Hhere : theorem_here unicode_alnum
                      (py "theorem" ++ ws ++ name ++ rest)
                    = Some (name, 7 + length ws + length name)).
    { unfold theorem_here. rewrite startswith_app.
      change (skipn 7 (py "theorem" ++ ws ++ name ++ rest))
        with (ws ++ name ++ rest).
      destruct (take_drop_while_app isspace ws (name ++ rest) Hspace)
        as [Ht Hd].
      { destruct name as [|c name]; [contradiction|].
        inversion Hword; subst. now apply is_word_not_space. }
      rewrite Ht, Hd.
      destruct (take_drop_while_app (is_word unicode_alnum) name rest
                                    Hword Hrest) as [Ht' _].
      rewrite Ht'. destruct ws; [contradiction|].
      destruct name; [contradiction|]. reflexivity. }
    change (py "theorem" ++ ws ++ name ++ rest)
      with (116%N :: (py "heorem" ++ ws ++ name ++ rest)) in *.
    cbn [sub_theorem_go]. rewrite Hhere.
    rewrite sub_theorem_go_skip.
    replace (skipn (7 + length ws + length name - 1)
                   (py "heorem" ++ ws ++ name ++ rest)) with rest.
    + rewrite (sub_theorem_go_none _ _ Hnone). unfold suffix.
      now rewrite <- !app_assoc.
    + replace (7 + length ws + length name - 1)
        with (length (py "heorem" ++ ws ++ name) + 0)
        by (rewrite !length_app; change (length (py "heorem")) with 6; lia).
      rewrite !app_assoc. rewrite skipn_app_2 || idtac.
      rewrite <- !app_assoc.
      replace (py "heorem" ++ ws ++ name ++ rest)
        with ((py "heorem" ++ ws ++ name) ++ rest)
        by (now rewrite <- !app_assoc).
      rewrite skipn_app, Nat.add_0_r, skipn_all, Nat.sub_diag. reflexivity.
Qed.

End Session.

End Extras.

(* ===================================================================== *)
(** * The further properties on the example sessions *)
(* ===================================================================== *)

Module ExtraExamples.
Import PyStr PyStrFacts Agent ScanSpec EditSpec Queries LineSpec DemoDocs.

Local Open Scope string_scope.
Local Open Scope list_scope.

Lemma loaded (text : string) (doc : str) :
  Demo.reachable text (fst (Demo.load text Demo.start doc)).
Proof. apply reach_load, reach_init. Qed.

(** The edit of the placeholder of a document is the load of the document
    with [trivial] in its place. *)
Lemma edit_is_load_of_edited_document_witness :
  let st := fst (Demo.load "Success" Demo.start Demo.sorry_doc) in
  exists st' r,
    Demo.edit "Success" st (py "sorry_0") (py "trivial")
    = (st', Returned (EditOk r)) /\
    edit_successful r = true /\
    updated_code r = Demo.lines_of ["theorem t : True := by"; "  trivial"] /\
    fst (Demo.load "Success" st (updated_code r)) = st'.
Proof.
  cbv zeta.
  destruct (Extras.edit_is_load_of_edited_document
              unit (Demo.reply "Success") Demo.no_unicode_alnum tt
              Demo.ident Demo.session Demo.instance
              (fst (Demo.load "Success" Demo.start Demo.sorry_doc))
              (py "sorry_0") (py "trivial")
              (loaded "Success" Demo.sorry_doc))
    as (c & i & ln & st' & r & Hc & Hi & Hln & He & Hok & Hdoc & Hl).
  - vm_compute. now left.
  - exists st', r. split; [exact He|]. split; [exact Hok|]. split.
    + vm_compute in Hc. injection Hc as <-.
      simpl line in Hi. assert (E : i = 1%nat) by lia. subst i.
      vm_compute in Hln. injection Hln as <-.
      rewrite Hdoc. vm_compute. reflexivity.
    + unfold Demo.load in *. now rewrite Hl.
Defined.

(** The thread information after a load and an edit. *)
Lemma thread_info_is_fixed_witness :
  let st := fst (Demo.edit "Success"
                   (fst (Demo.load "Success" Demo.start Demo.sorry_doc))
                   (py "sorry_0") (py "trivial")) in
  session_id st = Demo.session /\
  p_thread_info (snd (panel st)) = info /\
  cr_thread_info (snd (Demo.load "Success" st Demo.demo_doc)) = Some info.
Proof.
  cbv zeta.
  destruct (Extras.thread_info_is_fixed
              unit (Demo.reply "Success") Demo.no_unicode_alnum tt
              Demo.ident Demo.session Demo.instance
              (fst (Demo.edit "Success"
                      (fst (Demo.load "Success" Demo.start Demo.sorry_doc))
                      (py "sorry_0") (py "trivial"))))
    as (_ & Hs & Hl & _ & _ & Hp).
  - apply reach_edit. apply (loaded "Success" Demo.sorry_doc).
  - split; [exact Hs|]. split; [exact Hp|]. apply Hl.
Defined.

(** An error the prover places at line 7 is a message at line 0, printed
    with line 1. *)
Lemma messages_only_at_line_zero_witness :
  let st := fst (Demo.load "[error] line 7: unknown tactic" Demo.start
                           Demo.demo_doc) in
  get_messages_at_position st 0 5 = current_messages st /\
  get_messages_at_position st 6 0 = [] /\
  map message (current_messages st) = [py "line 7: unknown tactic"].
Proof.
  cbv zeta.
  destruct (Extras.messages_only_at_line_zero
              unit (Demo.reply "[error] line 7: unknown tactic")
              Demo.no_unicode_alnum tt Demo.ident Demo.session Demo.instance
              (fst (Demo.load "[error] line 7: unknown tactic" Demo.start
                              Demo.demo_doc)) 6 5
              (loaded "[error] line 7: unknown tactic" Demo.demo_doc))
    as [H0 H6].
  split; [exact H0|]. split.
  - specialize (H6 ltac:(discriminate)). vm_compute. reflexivity.
  - vm_compute. reflexivity.
Defined.

Lemma panel_messages_at_line_one_witness :
  let st := fst (Demo.load "[error] line 7: unknown tactic" Demo.start
                           Demo.demo_doc) in
  p_messages (snd (panel st))
  = [py "[error] line 7: unknown tactic at line 1"].
Proof.
  cbv zeta. unfold panel.
  rewrite (Extras.panel_messages_at_line_one
             unit (Demo.reply "[error] line 7: unknown tactic")
             Demo.no_unicode_alnum tt Demo.ident Demo.session Demo.instance
             _ (loaded "[error] line 7: unknown tactic" Demo.demo_doc)).
  vm_compute. reflexivity.
Defined.

(** The goal of the second [have] of the demonstration document. *)
Lemma goals_point_at_placeholders_witness :
  let st := fst (Demo.load "Success" Demo.start Demo.demo_doc) in
  let g := sorry_goal 2 (py "  have h2 : (P ∧ Q) ∧ R → R := by sorry") None in
  In g (current_goals st) /\
  position g = {| line := 2; column := 34 |} /\
  goal_text g = py "Goal at sorry on line 3".
Proof.
  cbv zeta.
  assert (Hin : In (sorry_goal 2
                      (py "  have h2 : (P ∧ Q) ∧ R → R := by sorry") None)
                   (current_goals
                      (fst (Demo.load "Success" Demo.start Demo.demo_doc))))
    by (vm_compute; tauto).
  destruct (Extras.goals_point_at_placeholders
              unit (Demo.reply "Success") Demo.no_unicode_alnum tt
              Demo.ident Demo.session Demo.instance
              _ _ (loaded "Success" Demo.demo_doc) Hin)
    as (i & ln & p & _ & _ & _ & Hpos & Htext).
  split; [exact Hin|]. split; vm_compute; reflexivity.
Defined.

(** The placeholder of the block document and its goal. *)
Lemma sorry_clause_has_goal_witness :
  let st := fst (Demo.load "Success" Demo.start block_doc) in
  exists c g,
    dict_get (py "sorry_2") (editable_clauses st) = Some c /\
    start_pos c = {| line := 5; column := 2 |} /\
    get_goal_at_position st 5 2 = Some g /\
    position g = start_pos c.
Proof.
  cbv zeta.
  destruct (dict_get (py "sorry_2")
              (editable_clauses (fst (Demo.load "Success" Demo.start block_doc))))
    as [c|] eqn:Hc; [|vm_compute in Hc; discriminate Hc].
  destruct (Extras.sorry_clause_has_goal
              unit (Demo.reply "Success") Demo.no_unicode_alnum
              Demo.ident Demo.instance Demo.start block_doc (py "sorry_2") c)
    as (g & Hg & Hpos & _).
  - vm_compute. reflexivity.
  - exact Hc.
  - vm_compute in Hc. injection Hc as <-. reflexivity.
  - exists c, g. split; [reflexivity|].
    assert (Hstart : start_pos c = {| line := 5; column := 2 |})
      by (vm_compute in Hc; injection Hc as <-; reflexivity).
    split; [exact Hstart|]. rewrite Hstart in Hg. split; [exact Hg|exact Hpos].
Defined.

(** A theorem whose [by] is on the next line has nothing to edit. *)
Lemma no_opening_line_no_clauses_witness :
  let st := fst (Demo.load "Success" Demo.start late_by_doc) in
  editable_clauses st = [] /\
  Demo.add "Success" st [py "trivial"]
  = (st, Returned (EditError
                     (py "No main proof clause found to add structure to")
                     (thread_info_of Demo.ident Demo.instance st))).
Proof.
  cbv zeta.
  destruct (Extras.no_opening_line_no_clauses
              unit (Demo.reply "Success") Demo.no_unicode_alnum
              Demo.ident Demo.instance Demo.start late_by_doc)
    as (He & _ & Ha).
  - intros ln Hln. vm_compute in Hln.
    destruct Hln as [<-|[<-|[]]]; vm_compute; reflexivity.
  - split; [exact He|apply Ha].
Defined.

(** The clauses of the block document: the comment and the blank line have
    none. *)
Lemma clauses_are_placed_witness :
  let st := fst (Demo.load "Success" Demo.start block_doc) in
  dict_keys (editable_clauses st)
  = [py "tactic_0"; py "tactic_block_1"; py "sorry_2"] /\
  exists c i ln,
    dict_get (py "tactic_block_1") (editable_clauses st) = Some c /\
    line (start_pos c) = Z.of_nat i /\
    nth_error (split_on NL (current_code st)) i = Some ln /\
    nonempty (strip ln) = true.
Proof.
  cbv zeta. split; [vm_compute; reflexivity|].
  destruct (dict_get (py "tactic_block_1")
              (editable_clauses (fst (Demo.load "Success" Demo.start block_doc))))
    as [c|] eqn:Hc; [|vm_compute in Hc; discriminate Hc].
  destruct (Extras.clauses_are_placed
              unit (Demo.reply "Success") Demo.no_unicode_alnum tt
              Demo.ident Demo.session Demo.instance
              _ _ _ (loaded "Success" block_doc) Hc)
    as (_ & _ & i & ln & Hl & _ & Hln & Hne & _).
  exists c, i, ln. now repeat split.
Defined.

Lemma one_clause_per_line_witness :
  let st := fst (Demo.load "Success" Demo.start Demo.demo_doc) in
  length (editable_clauses st) = 6 /\
  length (split_on NL (current_code st)) = 7 /\
  length (editable_clauses st) <= length (split_on NL (current_code st)).
Proof.
  cbv zeta.
  destruct (dict_get (py "have_h1")
              (editable_clauses
                 (fst (Demo.load "Success" Demo.start Demo.demo_doc))))
    as [c|] eqn:Hc; [|vm_compute in Hc; discriminate Hc].
  destruct (Extras.one_clause_per_line
              unit (Demo.reply "Success") Demo.no_unicode_alnum tt
              Demo.ident Demo.session Demo.instance
              _ _ _ _ _ (loaded "Success" Demo.demo_doc) Hc Hc eq_refl)
    as (_ & _ & Hle).
  split; [vm_compute; reflexivity|]. split; [vm_compute; reflexivity|].
  exact Hle.
Defined.


(** The text sent to the prover for the example document, and for a text
    without a theorem. *)
Lemma unique_code_renames_theorem_witness :
  make_thread_unique_code Demo.no_unicode_alnum
    (py "theorem   swap (A B : Prop) : A ∧ B → B ∧ A := by sorry")
    Demo.ident Demo.session
  = py "theorem swap_t737_s5f3a9c1e (A B : Prop) : A ∧ B → B ∧ A := by sorry"
  /\
  make_thread_unique_code Demo.no_unicode_alnum (py "example : True := by trivial")
    Demo.ident Demo.session
  = py "example : True := by trivial".
Proof.
  destruct (Extras.unique_code_renames_theorem
              Demo.no_unicode_alnum Demo.ident Demo.session
              (py "example : True := by trivial")
              (py "   ") (py "swap")
              (py " (A B : Prop) : A ∧ B → B ∧ A := by sorry"))
    as [Hnone Hren].
  assert (Hdoc : py "theorem   swap (A B : Prop) : A ∧ B → B ∧ A := by sorry"
                 = py "theorem" ++ py "   " ++ py "swap"
                   ++ py " (A B : Prop) : A ∧ B → B ∧ A := by sorry")
    by (vm_compute; reflexivity).
  assert (Hws : py "   " <> []) by (vm_compute; discriminate).
  assert (Hspace : Forall (fun c => isspace c = true) (py "   "))
    by (vm_compute; repeat constructor).
  assert (Hname : py "swap" <> []) by (vm_compute; discriminate).
  assert (Hword : Forall (fun c => is_word Demo.no_unicode_alnum c = true)
                         (py "swap"))
    by (vm_compute; repeat constructor).
  assert (Hrest : match py " (A B : Prop) : A ∧ B → B ∧ A := by sorry" with
                  | [] => True
                  | c :: _ => is_word Demo.no_unicode_alnum c = false
                  end)
    by (vm_compute; reflexivity).
  assert (Hno : index_of (py "theorem")
                  (py " (A B : Prop) : A ∧ B → B ∧ A := by sorry") = None)
    by (vm_compute; reflexivity).
  split.
  - rewrite Hdoc, (Hren Hws Hspace Hname Hword Hrest Hno).
    vm_compute. reflexivity.
  - apply Hnone. vm_compute. reflexivity.
Defined.

End ExtraExamples.
